(** * UwUntu API key service (index.js): shallow embedding and checked properties

    The Express handlers of [index.js] are embedded as state-passing
    functions over a model of the SQLite connection they share.

    Conventions of the embedding:
    - the database is the three-part state of one connection: the tables,
      the [foreign_keys] pragma, and the snapshot of an open transaction;
    - [users] and [apikeys] are rowid tables, hence finite maps from the
      integer primary key to the remaining columns;
    - a timestamp column holds the text [datetime t] of an instant [t]; the
      model stores [t] (seconds since the epoch, what [strftime('%s', _)]
      reads back) and renders the text where a handler turns it into a string;
    - every statement whose callback receives an error takes an optional
      [fault], the message of an error raised by the engine for a reason
      outside the data (I/O, lock, disk full); the constraint errors are
      computed from the data.  The transaction statements issued without a
      callback ([PRAGMA], [BEGIN], [COMMIT], [ROLLBACK]) are executed in
      program order by the SQL semantics;
    - the compensating [DELETE] of [saveUser] is queued without a callback
      and the reply is sent at once: it runs after the reply, it takes a
      fault as every other statement, and its error is dropped;
    - request fields are strings or absent; a route parameter is taken after
      [Number(...)], as the number the handler works with; row ids are
      mathematical integers. *)

From Stdlib Require Import ZArith NArith Ascii String List Lia.
From Stdlib.Strings Require Import Byte.
From stdpp Require Import gmap strings list fin_maps sorting pretty.

Local Open Scope Z_scope.

(** ** JavaScript values and string primitives *)

Module Js.

(** The double quote and line feed characters. *)
Definition dquote : ascii := ascii_of_N 34.
Definition newline : ascii := ascii_of_N 10.

(** [!v] for a value that is a string, [undefined] or [null]. *)
Definition falsy (v : option string) : bool :=
  match v with
  | None => true
  | Some s => if String.eqb s EmptyString then true else false
  end.

(** The result of [Number(req.params.id)]: [NaN], an integral number, or
    any other number (a fraction or an infinity). *)
Inductive number : Type :=
| NaN
| Int (z : Z)
| NonInt.

(** [!id] on a number is true exactly for [NaN] and zero. *)
Definition falsy_number (n : number) : bool :=
  match n with
  | NaN => true
  | Int z => z =? 0
  | NonInt => false
  end.

(** [s.includes(sub)]. *)
Fixpoint includes (s sub : string) : bool :=
  String.prefix sub s ||
  match s with
  | EmptyString => false
  | String _ s' => includes s' sub
  end.

(** [toUpperCase] on the ASCII letters. *)
Definition char_toUpperCase (c : ascii) : ascii :=
  let n := N_of_ascii c in
  if ((97 <=? n) && (n <=? 122))%N then ascii_of_N (n - 32) else c.

Fixpoint toUpperCase (s : string) : string :=
  match s with
  | EmptyString => EmptyString
  | String c s' => String (char_toUpperCase c) (toUpperCase s')
  end.

(** [buf.toString('hex')]: two lower-case hexadecimal digits per byte. *)
Definition hex_digit (n : N) : ascii :=
  match n with
  | 0 => "0" | 1 => "1" | 2 => "2" | 3 => "3" | 4 => "4"
  | 5 => "5" | 6 => "6" | 7 => "7" | 8 => "8" | 9 => "9"
  | 10 => "a" | 11 => "b" | 12 => "c" | 13 => "d" | 14 => "e"
  | _ => "f"
  end%N%char.

Definition byte_hex (b : Byte.byte) : string :=
  let n := Byte.to_N b in
  String (hex_digit (n / 16)) (String (hex_digit (n mod 16)) EmptyString).

Fixpoint toString_hex (buf : list Byte.byte) : string :=
  match buf with
  | [] => EmptyString
  | b :: buf' => byte_hex b +:+ toString_hex buf'
  end.

(** [s.replace] with the global pattern of one double quote and a
    replacement of two: every double quote of [s] is doubled. *)
Fixpoint replace_dquotes (s : string) : string :=
  match s with
  | EmptyString => EmptyString
  | String c s' =>
      if Ascii.eqb c dquote
      then String dquote (String dquote (replace_dquotes s'))
      else String c (replace_dquotes s')
  end.

(** A regular expression made of one-character atoms, anchored at both
    ends: [/^a1 a2 ... an$/]. *)
Inductive re_atom : Type :=
| Lit (c : ascii)
| Class (ranges : list (ascii * ascii)).

Definition in_range (c : ascii) (r : ascii * ascii) : bool :=
  ((N_of_ascii (fst r) <=? N_of_ascii c) && (N_of_ascii c <=? N_of_ascii (snd r)))%N.

Definition atom_matches (a : re_atom) (c : ascii) : bool :=
  match a with
  | Lit c' => Ascii.eqb c' c
  | Class ranges => existsb (in_range c) ranges
  end.

Fixpoint re_literal (s : string) : list re_atom :=
  match s with
  | EmptyString => []
  | String c s' => Lit c :: re_literal s'
  end.

Fixpoint re_test (re : list re_atom) (s : string) : bool :=
  match re, s with
  | [], EmptyString => true
  | a :: re', String c s' => atom_matches a c && re_test re' s'
  | _, _ => false
  end.

End Js.

(** ** Key generator *)

(** [makeApiKey] (index.js, lines 72-75), given the eight bytes drawn by
    [crypto.randomBytes(8)]. *)
Definition makeApiKey (randomBytes : list Byte.byte) : string :=
  "UWUNTU-API-" +:+ Js.toUpperCase (Js.toString_hex randomBytes).

(** [/^UWUNTU-API-[A-F0-9]{16}$/] *)
Definition key_re : list Js.re_atom :=
  Js.re_literal "UWUNTU-API-" ++
  repeat (Js.Class [("A", "F"); ("0", "9")]%char) 16.


(** ** The SQLite connection *)

Module Sqlite.

(** [datetime(t, 'unixepoch')]: the text [YYYY-MM-DD HH:MM:SS] of an instant,
    in UTC (proleptic Gregorian calendar; years 0000 to 9999). *)
Definition civil_from_days (z : Z) : Z * Z * Z :=
  let z := z + 719468 in
  let era := z / 146097 in
  let doe := z - era * 146097 in
  let yoe := (doe - doe / 1460 + doe / 36524 - doe / 146096) / 365 in
  let doy := doe - (365 * yoe + yoe / 4 - yoe / 100) in
  let mp := (5 * doy + 2) / 153 in
  let d := doy - (153 * mp + 2) / 5 + 1 in
  let m := if mp <? 10 then mp + 3 else mp - 9 in
  let y := yoe + era * 400 + (if m <=? 2 then 1 else 0) in
  (y, m, d).

Fixpoint zeros (n : nat) : string :=
  match n with
  | O => EmptyString
  | S n' => String "0" (zeros n')
  end.

Definition zero_pad (width : nat) (s : string) : string :=
  zeros (width - String.length s) +:+ s.

Definition digits (width : nat) (n : Z) : string := zero_pad width (pretty n).

Definition datetime (t : Z) : string :=
  let '(y, m, d) := civil_from_days (t / 86400) in
  let sod := t mod 86400 in
  digits 4 y +:+ "-" +:+ digits 2 m +:+ "-" +:+ digits 2 d +:+ " " +:+
  digits 2 (sod / 3600) +:+ ":" +:+ digits 2 (sod mod 3600 / 60) +:+ ":" +:+
  digits 2 (sod mod 60).

(** A row of [users] without its [id], which is the key of the table. *)
Record user_row : Type := {
  firstname : string;
  lastname : string;
  email : string;
  is_online : Z;
  last_seen : option Z;
  created_at : Z
}.

(** A row of [apikeys] without its [id]. *)
Record apikey_row : Type := {
  api_key : string;
  apikey_created_at : Z
}.

(** The tables, with the [sqlite_sequence] entry that [AUTOINCREMENT] keeps
    for [users]: the largest row id ever handed out. *)
Record tables : Type := {
  users : gmap Z user_row;
  apikeys : gmap Z apikey_row;
  users_seq : Z
}.

(** The connection: the current tables, the [foreign_keys] pragma (off when
    the connection is opened), and the tables as they were at [BEGIN] while a
    transaction is open. *)
Record db : Type := {
  tbl : tables;
  foreign_keys : bool;
  txn : option tables
}.

Definition empty_tables : tables :=
  {| users := ∅; apikeys := ∅; users_seq := 0 |}.

Definition open_db : db :=
  {| tbl := empty_tables; foreign_keys := false; txn := None |}.

Definition set_tbl (d : db) (t : tables) : db :=
  {| tbl := t; foreign_keys := foreign_keys d; txn := txn d |}.

(** The outcome of a statement, as its callback sees it. *)
Inductive result (A : Type) : Type :=
| Ok (a : A)
| Err (message : string).
Arguments Ok {A} a.
Arguments Err {A} message.

(** An error of the engine that does not come from the data. *)
Definition fault : Type := option string.

Definition guarded {A : Type} (f : fault) (r : result A) : result A :=
  match f with
  | Some message => Err message
  | None => r
  end.

(** A table scan visits the rows in row id order. *)
Definition rowid_le {A : Type} (x y : Z * A) : Prop := x.1 ≤ y.1.

#[global] Instance rowid_le_dec {A : Type} : RelDecision (@rowid_le A) :=
  λ x y, Z_le_dec x.1 y.1.

Definition scan {A : Type} (m : gmap Z A) : list (Z * A) :=
  merge_sort rowid_le (map_to_list m).

Definition max_rowid {A : Type} (m : gmap Z A) : Z :=
  foldr (λ r acc, Z.max r.1 acc) 0 (map_to_list m).

Definition email_taken (em : string) (t : tables) : bool :=
  existsb (λ r, String.eqb (email r.2) em) (scan (users t)).

Definition key_taken (k : string) (t : tables) : bool :=
  existsb (λ r, String.eqb (api_key r.2) k) (scan (apikeys t)).

(** [INSERT INTO users (firstname, lastname, email) VALUES (?,?,?)];
    the result carries [this.lastID]. *)
Definition insert_user (f : fault) (now : Z) (fn ln em : string) (d : db)
  : result (Z * db) :=
  guarded f
    (let t := tbl d in
     if email_taken em t
     then Err "SQLITE_CONSTRAINT: UNIQUE constraint failed: users.email"
     else
       let id := Z.max (max_rowid (users t)) (users_seq t) + 1 in
       let row := {| firstname := fn; lastname := ln; email := em;
                     is_online := 0; last_seen := None; created_at := now |} in
       Ok (id, set_tbl d {| users := <[id := row]> (users t);
                            apikeys := apikeys t;
                            users_seq := id |})).

(** [INSERT INTO apikeys (id, api_key) VALUES (?,?)] *)
Definition insert_apikey (f : fault) (now : Z) (id : Z) (k : string) (d : db)
  : result db :=
  guarded f
    (let t := tbl d in
     match apikeys t !! id with
     | Some _ => Err "SQLITE_CONSTRAINT: UNIQUE constraint failed: apikeys.id"
     | None =>
         if key_taken k t
         then Err "SQLITE_CONSTRAINT: UNIQUE constraint failed: apikeys.api_key"
         else
           match foreign_keys d, users t !! id with
           | true, None => Err "SQLITE_CONSTRAINT: FOREIGN KEY constraint failed"
           | _, _ =>
               Ok (set_tbl d {| users := users t;
                                apikeys := <[id := {| api_key := k;
                                                      apikey_created_at := now |}]>
                                             (apikeys t);
                                users_seq := users_seq t |})
           end
     end).

(** [DELETE FROM users WHERE id = ?]; with [foreign_keys] on, the key row
    that references a deleted user goes with it ([ON DELETE CASCADE]). *)
Definition delete_user_rows (id : Js.number) (d : db) : db :=
  match id with
  | Js.Int z =>
      let t := tbl d in
      match users t !! z with
      | Some _ =>
          set_tbl d {| users := delete z (users t);
                       apikeys := if foreign_keys d then delete z (apikeys t)
                                  else apikeys t;
                       users_seq := users_seq t |}
      | None => d
      end
  | _ => d
  end.

Definition delete_user (f : fault) (id : Js.number) (d : db) : result db :=
  guarded f (Ok (delete_user_rows id d)).

(** [DELETE FROM apikeys WHERE id = ?] *)
Definition delete_apikey (f : fault) (id : Js.number) (d : db) : result db :=
  guarded f
    (Ok match id with
        | Js.Int z =>
            let t := tbl d in
            set_tbl d {| users := users t;
                         apikeys := delete z (apikeys t);
                         users_seq := users_seq t |}
        | _ => d
        end).

(** [SELECT * FROM apikeys WHERE api_key = ?], first row. *)
Definition select_apikey (f : fault) (k : string) (d : db)
  : result (option (Z * apikey_row)) :=
  guarded f
    (Ok (find (λ r, String.eqb (api_key r.2) k) (scan (apikeys (tbl d))))).

(** [UPDATE users SET is_online = 1, last_seen = datetime('now') WHERE id = ?] *)
Definition mark_seen (now : Z) (u : user_row) : user_row :=
  {| firstname := firstname u; lastname := lastname u; email := email u;
     is_online := 1; last_seen := Some now; created_at := created_at u |}.

Definition update_seen (f : fault) (now : Z) (id : Z) (d : db) : result db :=
  guarded f
    (let t := tbl d in
     Ok (set_tbl d {| users := alter (mark_seen now) id (users t);
                      apikeys := apikeys t;
                      users_seq := users_seq t |})).

(** [PRAGMA foreign_keys = ON]: no effect inside a transaction. *)
Definition pragma_foreign_keys_on (d : db) : db :=
  match txn d with
  | Some _ => d
  | None => {| tbl := tbl d; foreign_keys := true; txn := None |}
  end.

(** [BEGIN TRANSACTION]: an error, without effect, inside a transaction. *)
Definition begin_transaction (d : db) : db :=
  match txn d with
  | Some _ => d
  | None => {| tbl := tbl d; foreign_keys := foreign_keys d; txn := Some (tbl d) |}
  end.

(** [ROLLBACK]: an error, without effect, outside a transaction. *)
Definition rollback (d : db) : db :=
  match txn d with
  | Some t0 => {| tbl := t0; foreign_keys := foreign_keys d; txn := None |}
  | None => d
  end.

(** [COMMIT] *)
Definition commit (d : db) : db :=
  {| tbl := tbl d; foreign_keys := foreign_keys d; txn := None |}.

End Sqlite.

(** ** The HTTP handlers *)

Module Api.
Import Sqlite.

(** A value read from a row object: a string or a number. *)
Inductive value : Type :=
| Str (s : string)
| Num (z : Z).

Definition truthy (v : value) : bool :=
  match v with
  | Str s => negb (String.eqb s EmptyString)
  | Num z => negb (z =? 0)
  end.

(** [v || dflt], where [v] is [undefined] when the row has no such field. *)
Definition or_else (v : option value) (dflt : value) : value :=
  match v with
  | Some x => if truthy x then x else dflt
  | None => dflt
  end.

(** The row of the join that [saveUser] and [exportCsv] select. *)
Record joined_row : Type := {
  j_id : Z;
  j_firstname : string;
  j_lastname : string;
  j_email : string;
  j_user_created_at : Z;
  j_api_key : option string;
  j_apikey_created_at : option Z;
  j_last_seen : option Z
}.

(** The row that [listUsers] selects. *)
Record listed_row : Type := {
  l_id : Z;
  l_firstname : string;
  l_lastname : string;
  l_email : string;
  l_last_seen : option Z;
  online_now : Z;
  l_user_created_at : Z;
  l_api_key : option string;
  l_apikey_created_at : option Z
}.

(** JSON bodies, by shape. *)
Inductive body : Type :=
| BError (error : string) (details : option string)
| BInvalid (reason : string) (message : option string)
| BValid (key : string) (status : value) (createdAt : Z) (message : string)
| BSaved (user : joined_row)
| BSuccess
| BUsers (rows : list listed_row)
| BCsv (text : string).

(** What a handler does with the request: it replies, or an exception
    escapes from a database callback. *)
Inductive response : Type :=
| Reply (status : Z) (b : body)
| Uncaught (error : string).

Record save_request : Type := {
  r_firstname : option string;
  r_lastname : option string;
  r_email : option string;
  r_apiKey : option string
}.

Definition text (v : option string) : string := default EmptyString v.

(** [users u LEFT JOIN apikeys a ON a.id = u.id], for one user row. *)
Definition left_join (keys : gmap Z apikey_row) (r : Z * user_row) : joined_row :=
  {| j_id := r.1;
     j_firstname := firstname r.2;
     j_lastname := lastname r.2;
     j_email := email r.2;
     j_user_created_at := created_at r.2;
     j_api_key := api_key <$> keys !! r.1;
     j_apikey_created_at := apikey_created_at <$> keys !! r.1;
     j_last_seen := last_seen r.2 |}.

(** The [SELECT ... WHERE u.id = ?] that follows the two inserts. *)
Definition select_saved (f : fault) (id : Z) (d : db) : result (option joined_row) :=
  guarded f
    (Ok ((λ u, left_join (apikeys (tbl d)) (id, u)) <$> users (tbl d) !! id)).

(** What serving a request leaves: the reply, the store at the moment the
    reply is sent, and the store once a statement that the handler queued
    without waiting for it has run as well. *)
Record served : Type := {
  reply : response;
  at_reply : db;
  settled : db
}.

(** A reply that leaves nothing queued. *)
Definition replied (r : response) (d : db) : served :=
  {| reply := r; at_reply := d; settled := d |}.

(** [POST /api/save-user] (index.js, lines 91-121); [tu] and [tk] are the
    instants of the two inserts.  When the key insert fails the handler
    queues [DELETE FROM users WHERE id = ?] without a callback and sends the
    reply (lines 109-110): at the reply the user row is still stored; the
    [DELETE] runs afterwards, with fault [fd], and nobody looks at its
    error. *)
Definition saveUser_route (fu fk fd fg : fault) (tu tk : Z) (b : save_request)
  (d : db) : served :=
  if Js.falsy (r_firstname b) || Js.falsy (r_lastname b) ||
     Js.falsy (r_email b) || Js.falsy (r_apiKey b)
  then replied
         (Reply 400 (BError "firstname, lastname, email and apiKey required" None)) d
  else
    match insert_user fu tu (text (r_firstname b)) (text (r_lastname b))
                      (text (r_email b)) d with
    | Err m =>
        if negb (Js.falsy (Some m)) && Js.includes m "UNIQUE"
        then replied (Reply 409 (BError "Email already exists" None)) d
        else replied (Reply 500 (BError "DB insert user failed" (Some m))) d
    | Ok (userId, d1) =>
        match insert_apikey fk tk userId (text (r_apiKey b)) d1 with
        | Err m2 =>
            (* rollback user *)
            {| reply := Reply 500 (BError "DB insert apikey failed" (Some m2));
               at_reply := d1;
               settled := match delete_user fd (Js.Int userId) d1 with
                          | Ok d2 => d2
                          | Err _ => d1
                          end |}
        | Ok d2 =>
            match select_saved fg userId d2 with
            | Err m =>
                replied (Reply 500 (BError "DB fetch after save failed" (Some m))) d2
            | Ok None => replied (Uncaught "TypeError: row is undefined") d2
            | Ok (Some row) => replied (Reply 200 (BSaved row)) d2
            end
        end
    end.

(** The reply of [POST /api/save-user] and the store that the statements of
    the next request find. *)
Definition saveUser (fu fk fd fg : fault) (tu tk : Z) (b : save_request) (d : db)
  : response * db :=
  let s := saveUser_route fu fk fd fg tu tk b d in
  (reply s, settled s).

(** The fields of a row object read by [SELECT * FROM apikeys]. *)
Definition apikeys_field (r : Z * apikey_row) (column : string) : option value :=
  if String.eqb column "id" then Some (Num r.1)
  else if String.eqb column "api_key" then Some (Str (api_key r.2))
  else if String.eqb column "created_at"
       then Some (Str (datetime (apikey_created_at r.2)))
  else None.

(** [GET /api/validate?key=...] (index.js, lines 124-159) *)
Definition validateKey (fl fu : fault) (now : Z) (key : option string) (d : db)
  : response * db :=
  if Js.falsy key then (Reply 400 (BInvalid "missing_key" None), d)
  else if negb (Js.re_test key_re (text key))
  then (Reply 400 (BInvalid "invalid_format" None), d)
  else
    match select_apikey fl (text key) d with
    | Err _ => (Reply 500 (BInvalid "db_error" None), d)
    | Ok None =>
        (Reply 404 (BInvalid "not_found" (Some "API key tidak ditemukan.")), d)
    | Ok (Some row) =>
        let d' := match update_seen fu now row.1 d with
                  | Ok d' => d'
                  | Err _ => d
                  end in
        (Reply 200 (BValid (api_key row.2)
                           (or_else (apikeys_field row "status") (Str "active"))
                           (apikey_created_at row.2)
                           "API key valid dan last_seen diupdate."), d')
    end.

(** [requireAdmin] (index.js, lines 222-225):
    [req.session && req.session.adminId]. *)
Record session : Type := {
  adminId : option Z;
  adminEmail : option string
}.

Definition is_admin (s : option session) : bool :=
  match s with
  | Some {| adminId := Some id |} => negb (id =? 0)
  | _ => false
  end.

Definition requireAdmin (s : option session) (next : db → response * db) (d : db)
  : response * db :=
  if is_admin s then next d
  else (Reply 401 (BError "Unauthorized" None), d).

Definition ONLINE_WINDOW_SECONDS : Z := 30 * 24 * 3600.

Definition list_row (now : Z) (keys : gmap Z apikey_row) (r : Z * user_row)
  : listed_row :=
  {| l_id := r.1;
     l_firstname := firstname r.2;
     l_lastname := lastname r.2;
     l_email := email r.2;
     l_last_seen := last_seen r.2;
     online_now := match last_seen r.2 with
                   | Some seen =>
                       if now - seen <=? ONLINE_WINDOW_SECONDS then 1 else 0
                   | None => 0
                   end;
     l_user_created_at := created_at r.2;
     l_api_key := api_key <$> keys !! r.1;
     l_apikey_created_at := apikey_created_at <$> keys !! r.1 |}.

(** [GET /admin/api/users] (index.js, lines 231-250) *)
Definition listUsers (f : fault) (now : Z) (d : db) : response * db :=
  match guarded f (Ok (list_row now (apikeys (tbl d)) <$> scan (users (tbl d)))) with
  | Err m => (Reply 500 (BError m None), d)
  | Ok rows => (Reply 200 (BUsers rows), d)
  end.

(** [POST /admin/api/user/:id/revoke] (index.js, lines 254-260) *)
Definition revokeKey (f : fault) (id : Js.number) (d : db) : response * db :=
  match delete_apikey f id d with
  | Err m => (Reply 500 (BError m None), d)
  | Ok d' => (Reply 200 BSuccess, d')
  end.

(** [esc] of the export: nothing for [null], else the text between double
    quotes with its double quotes doubled. *)
Definition esc (v : option string) : string :=
  match v with
  | None => EmptyString
  | Some s => String Js.dquote (Js.replace_dquotes s +:+ String Js.dquote EmptyString)
  end.

Definition csv_header : string :=
  "id,firstname,lastname,email,user_created_at,api_key,apikey_created_at,last_seen"
  +:+ String Js.newline EmptyString.

Definition csv_line (r : joined_row) : string :=
  pretty (j_id r) +:+ "," +:+
  esc (Some (j_firstname r)) +:+ "," +:+
  esc (Some (j_lastname r)) +:+ "," +:+
  esc (Some (j_email r)) +:+ "," +:+
  esc (Some (datetime (j_user_created_at r))) +:+ "," +:+
  esc (j_api_key r) +:+ "," +:+
  esc (datetime <$> j_apikey_created_at r) +:+ "," +:+
  esc (datetime <$> j_last_seen r) +:+ String Js.newline EmptyString.

Fixpoint write_all (chunks : list string) : string :=
  match chunks with
  | [] => EmptyString
  | c :: rest => c +:+ write_all rest
  end.

(** [GET /admin/api/export] (index.js, lines 263-276) *)
Definition exportCsv (f : fault) (d : db) : response * db :=
  match guarded f (Ok (left_join (apikeys (tbl d)) <$> scan (users (tbl d)))) with
  | Err m => (Reply 500 (BError m None), d)
  | Ok rows => (Reply 200 (BCsv (csv_header +:+ write_all (csv_line <$> rows))), d)
  end.

(** [POST /admin/api/user/:id/delete] (index.js, lines 279-295) *)
Definition deleteUser (fk fu : fault) (id : Js.number) (d : db) : response * db :=
  if Js.falsy_number id then (Reply 400 (BError "invalid id" None), d)
  else
    let d0 := begin_transaction (pragma_foreign_keys_on d) in
    match delete_apikey fk id d0 with
    | Err m => (Reply 500 (BError "delete_keys_failed" (Some m)), rollback d0)
    | Ok d1 =>
        match delete_user fu id d1 with
        | Err m2 => (Reply 500 (BError "delete_user_failed" (Some m2)), rollback d1)
        | Ok d2 => (Reply 200 BSuccess, commit d2)
        end
    end.

(** The four admin-management routes as they are registered, each with
    [requireAdmin] before its handler. *)
Inductive admin_request : Type :=
| GetUsers
| PostRevoke (id : Js.number)
| GetExport
| PostDelete (id : Js.number).

(** The operation of a route; [f1] and [f2] are the faults of its first and
    second statement with a callback. *)
Definition admin_handler (f1 f2 : fault) (now : Z) (r : admin_request)
  : db → response * db :=
  match r with
  | GetUsers => listUsers f1 now
  | PostRevoke id => revokeKey f1 id
  | GetExport => exportCsv f1
  | PostDelete id => deleteUser f1 f2 id
  end.

Definition admin_route (f1 f2 : fault) (now : Z) (s : option session)
  (r : admin_request) (d : db) : response * db :=
  match r with
  | GetUsers => requireAdmin s (listUsers f1 now) d
  | PostRevoke id => requireAdmin s (revokeKey f1 id) d
  | GetExport => requireAdmin s (exportCsv f1) d
  | PostDelete id => requireAdmin s (deleteUser f1 f2 id) d
  end.

End Api.

(** ** Predicates of the specification *)

Module Props.
Import Sqlite Api.

(** One of the sixteen upper-case hexadecimal digits. *)
Definition upper_hex (c : ascii) : Prop :=
  c ∈ list_ascii_of_string "0123456789ABCDEF".

(** The key format: the prefix, then exactly sixteen upper-case hexadecimal
    digits. *)
Definition key_format (k : string) : Prop :=
  ∃ h, k = "UWUNTU-API-" +:+ h ∧
       String.length h = 16%nat ∧
       Forall upper_hex (list_ascii_of_string h).

(** All four fields of the request are present and non-empty. *)
Definition complete (b : save_request) : Prop :=
  Js.falsy (r_firstname b) = false ∧ Js.falsy (r_lastname b) = false ∧
  Js.falsy (r_email b) = false ∧ Js.falsy (r_apiKey b) = false.

(** Key [k] is stored for user [id]: both rows exist and no other row of
    [apikeys] holds [k]. *)
Definition persisted (d : db) (id : Z) (k : string) : Prop :=
  is_Some (users (tbl d) !! id) ∧
  (∃ a, apikeys (tbl d) !! id = Some a ∧ api_key a = k) ∧
  ∀ j b, apikeys (tbl d) !! j = Some b → api_key b = k → j = id.

(** Successive validations of one key, at the given instants. *)
Fixpoint validate_each (times : list Z) (key : string) (d : db)
  : list response * db :=
  match times with
  | [] => ([], d)
  | t :: rest =>
      let (r, d1) := validateKey None None t (Some key) d in
      let (rs, d2) := validate_each rest key d1 in
      (r :: rs, d2)
  end.

(** The reply that reports a valid key. *)
Definition valid_reply (k : string) (r : response) : Prop :=
  ∃ created, r = Reply 200 (BValid k (Str "active") created
                              "API key valid dan last_seen diupdate.").

(** Reading a quoted CSV field back: the text between the double quotes,
    with every doubled double quote read as one. *)
Fixpoint unquote_body (s : string) : option string :=
  match s with
  | EmptyString => None
  | String c s' =>
      if Ascii.eqb c Js.dquote
      then match s' with
           | EmptyString => Some EmptyString
           | String c' s'' =>
               if Ascii.eqb c' Js.dquote
               then String Js.dquote <$> unquote_body s''
               else None
           end
      else String c <$> unquote_body s'
  end.

Definition unquote (s : string) : option string :=
  match s with
  | EmptyString => None
  | String c s' => if Ascii.eqb c Js.dquote then unquote_body s' else None
  end.

(** The export as the specification words it: every value, a null one
    included, is written as a quoted field (the id is written as a bare
    number, as the handler does). *)
Definition esc_quoting_null (v : option string) : string :=
  String Js.dquote (Js.replace_dquotes (text v) +:+ String Js.dquote EmptyString).

Definition csv_line_quoting_null (r : joined_row) : string :=
  pretty (j_id r) +:+ "," +:+
  esc_quoting_null (Some (j_firstname r)) +:+ "," +:+
  esc_quoting_null (Some (j_lastname r)) +:+ "," +:+
  esc_quoting_null (Some (j_email r)) +:+ "," +:+
  esc_quoting_null (Some (datetime (j_user_created_at r))) +:+ "," +:+
  esc_quoting_null (j_api_key r) +:+ "," +:+
  esc_quoting_null (datetime <$> j_apikey_created_at r) +:+ "," +:+
  esc_quoting_null (datetime <$> j_last_seen r) +:+ String Js.newline EmptyString.

(** A text between double quotes. *)
Definition quoted (s : string) : string :=
  String Js.dquote (s +:+ String Js.dquote EmptyString).

(** The fields of a data line, in the order of the header. *)
Definition csv_fields (r : joined_row) : list string :=
  [ pretty (j_id r);
    esc (Some (j_firstname r));
    esc (Some (j_lastname r));
    esc (Some (j_email r));
    esc (Some (datetime (j_user_created_at r)));
    esc (j_api_key r);
    esc (datetime <$> j_apikey_created_at r);
    esc (datetime <$> j_last_seen r) ].

(** [fields.join(sep)] *)
Fixpoint join (sep : string) (fields : list string) : string :=
  match fields with
  | [] => EmptyString
  | [f] => f
  | f :: rest => f +:+ sep +:+ join sep rest
  end.

(** The session carries an admin id: [req.session.adminId] is a number
    other than zero. *)
Definition carries_admin_id (s : option session) : Prop :=
  ∃ sess id, s = Some sess ∧ adminId sess = Some id ∧ id ≠ 0.

(** The rows of a table other than those whose id is the number [id]. *)
Definition without {A : Type} (id : Js.number) (m : gmap Z A) : gmap Z A :=
  match id with
  | Js.Int z => delete z m
  | _ => m
  end.

(** Row [r] of a listing carries user [i] and the key row of the same id,
    if there is one (left join: the key fields are null otherwise). *)
Definition listed_from (keys : gmap Z apikey_row) (i : Z) (u : user_row)
  (r : listed_row) : Prop :=
  l_id r = i ∧ l_firstname r = firstname u ∧ l_lastname r = lastname u ∧
  l_email r = email u ∧ l_last_seen r = last_seen u ∧
  l_user_created_at r = created_at u ∧
  l_api_key r = api_key <$> keys !! i ∧
  l_apikey_created_at r = apikey_created_at <$> keys !! i.

Definition joined_from (keys : gmap Z apikey_row) (i : Z) (u : user_row)
  (r : joined_row) : Prop :=
  j_id r = i ∧ j_firstname r = firstname u ∧ j_lastname r = lastname u ∧
  j_email r = email u ∧ j_last_seen r = last_seen u ∧
  j_user_created_at r = created_at u ∧
  j_api_key r = api_key <$> keys !! i ∧
  j_apikey_created_at r = apikey_created_at <$> keys !! i.

(** Sample data: eight bytes, the key made from them, two requests that
    carry this key, and the store after the first one was saved. *)
Definition sample_bytes : list Byte.byte :=
  [Byte.x00; Byte.xff; Byte.x1a; Byte.xb2; Byte.x3c; Byte.x4d; Byte.x5e; Byte.x6f].

Definition sample_key : string := makeApiKey sample_bytes.

Definition ann_request : save_request :=
  {| r_firstname := Some "Ann"; r_lastname := Some "Lee";
     r_email := Some "ann@example.org"; r_apiKey := Some sample_key |}.

Definition bob_request : save_request :=
  {| r_firstname := Some "Bob"; r_lastname := Some "Ray";
     r_email := Some "bob@example.org"; r_apiKey := Some sample_key |}.

Definition ann_saved : db :=
  (saveUser None None None None 100 101 ann_request open_db).2.

(** A small store: one user, saved at instant 100, without a key row. *)
Definition one_user_no_key : db :=
  {| tbl := {| users := {[ 1 := {| firstname := "Ann"; lastname := "Lee";
                                   email := "ann@example.org"; is_online := 0;
                                   last_seen := None; created_at := 100 |} ]};
               apikeys := ∅;
               users_seq := 1 |};
     foreign_keys := false;
     txn := None |}.

End Props.

(** ** Presence, the request loop, administrator accounts, the console *)

(** The heartbeat routes (index.js, lines 163-178). *)
Module Presence.
Import Sqlite Api.

(** [UPDATE users SET is_online = 0, last_seen = NULL WHERE id = ?] *)
Definition mark_offline (u : user_row) : user_row :=
  {| firstname := firstname u; lastname := lastname u; email := email u;
     is_online := 0; last_seen := None; created_at := created_at u |}.

Definition update_offline (f : fault) (id : Z) (d : db) : result db :=
  guarded f
    (let t := tbl d in
     Ok (set_tbl d {| users := alter mark_offline id (users t);
                      apikeys := apikeys t;
                      users_seq := users_seq t |})).

(** An [UPDATE ... WHERE id = ?] whose parameter is a number: only an
    integral number is the id of a row. *)
Definition where_id (upd : Z → db → result db) (f : fault) (id : Js.number) (d : db)
  : result db :=
  match id with
  | Js.Int z => upd z d
  | _ => guarded f (Ok d)
  end.

(** [POST /api/user/:id/online] *)
Definition setOnline (f : fault) (now : Z) (id : Js.number) (d : db)
  : response * db :=
  match where_id (update_seen f now) f id d with
  | Err m => (Reply 500 (BError m None), d)
  | Ok d' => (Reply 200 BSuccess, d')
  end.

(** [POST /api/user/:id/offline] *)
Definition setOffline (f : fault) (id : Js.number) (d : db) : response * db :=
  match where_id (update_offline f) f id d with
  | Err m => (Reply 500 (BError m None), d)
  | Ok d' => (Reply 200 BSuccess, d')
  end.

End Presence.

(** The routes that work on the users and apikeys tables, as one request
    type, and the runs of the server over a sequence of requests. *)
Module Server.
Import Sqlite Api Presence.

Inductive request : Type :=
| SaveUser (fu fk fd fg : fault) (tu tk : Z) (b : save_request)
| ValidateKey (fl fu : fault) (now : Z) (key : option string)
| SetOnline (f : fault) (now : Z) (id : Js.number)
| SetOffline (f : fault) (id : Js.number)
| AdminApi (f1 f2 : fault) (now : Z) (s : option session) (r : admin_request).

Definition handle (q : request) (d : db) : response * db :=
  match q with
  | SaveUser fu fk fd fg tu tk b => saveUser fu fk fd fg tu tk b d
  | ValidateKey fl fu now key => validateKey fl fu now key d
  | SetOnline f now id => setOnline f now id d
  | SetOffline f id => setOffline f id d
  | AdminApi f1 f2 now s r => admin_route f1 f2 now s r d
  end.

(** The store after the requests were served one after the other. *)
Fixpoint run (qs : list request) (d : db) : db :=
  match qs with
  | [] => d
  | q :: rest => run rest (handle q d).2
  end.

(** What the schema and the handlers mean to keep: no transaction is left
    open; a key row belongs to a user row of the same id; e-mail addresses
    and key strings are not repeated; the ids are positive and not above the
    [AUTOINCREMENT] sequence. *)
Record consistent (d : db) : Prop := {
  no_open_txn : txn d = None;
  key_has_user : ∀ i a, apikeys (tbl d) !! i = Some a → is_Some (users (tbl d) !! i);
  email_unique : ∀ i j u v, users (tbl d) !! i = Some u → users (tbl d) !! j = Some v →
                            email u = email v → i = j;
  key_unique : ∀ i j a b, apikeys (tbl d) !! i = Some a → apikeys (tbl d) !! j = Some b →
                          api_key a = api_key b → i = j;
  ids_in_sequence : ∀ i u, users (tbl d) !! i = Some u → 0 < i ≤ users_seq (tbl d)
}.

(** The row that [listUsers] shows for a user who was just saved. *)
Definition fresh_listing (row : joined_row) : listed_row :=
  {| l_id := j_id row;
     l_firstname := j_firstname row;
     l_lastname := j_lastname row;
     l_email := j_email row;
     l_last_seen := None;
     online_now := 0;
     l_user_created_at := j_user_created_at row;
     l_api_key := j_api_key row;
     l_apikey_created_at := j_apikey_created_at row |}.

(** The rows of a [listUsers] reply (none when the reply is an error). *)
Definition listed (now : Z) (d : db) : list listed_row :=
  match (listUsers None now d).1 with
  | Reply _ (BUsers rows) => rows
  | _ => []
  end.

End Server.

(** The administrator accounts (index.js, lines 181-220): the [admins]
    table, which no other table refers to, the session of one client, and
    [bcrypt] as the two functions the handlers call. *)
Module Admin.
Import Sqlite Api.

Record admin_row : Type := {
  admin_email : string;
  password_hash : string;
  admin_created_at : Z
}.

Record admins : Type := {
  rows : gmap Z admin_row;
  admins_seq : Z
}.

Definition no_admins : admins := {| rows := ∅; admins_seq := 0 |}.

(** [bcrypt.hash(password, saltRounds)], given the salt it draws, and
    [bcrypt.compare(password, hash)]. *)
Class Bcrypt : Type := {
  bcrypt_hash : string → string → string;
  bcrypt_compare : string → string → bool
}.

(** What the handlers rely on: a password matches each of its hashes, and a
    hash is not the empty string. *)
Definition bcrypt_sound (B : Bcrypt) : Prop :=
  ∀ salt password,
    bcrypt_compare password (bcrypt_hash salt password) = true ∧
    bcrypt_hash salt password ≠ EmptyString.

Inductive admin_body : Type :=
| AError (error : string)
| ARegistered (adminId : Z)
| ASuccess.

Inductive admin_reply : Type :=
| AReply (status : Z) (b : admin_body).

Record credentials : Type := {
  c_email : option string;
  c_password : option string
}.

(** The body after [hashPasswordMiddleware]: [password] deleted,
    [password_hash] set. *)
Record hashed_credentials : Type := {
  h_email : option string;
  h_password_hash : option string
}.

(** [hashPasswordMiddleware]: a reply of its own, or the body handed to
    [next()]. *)
Definition hashPasswordMiddleware {B : Bcrypt} (salt : string) (c : credentials)
  : admin_reply + hashed_credentials :=
  if Js.falsy (c_password c) then inl (AReply 400 (AError "password required"))
  else inr {| h_email := c_email c;
              h_password_hash := Some (bcrypt_hash salt (text (c_password c))) |}.

Definition admin_email_taken (em : string) (a : admins) : bool :=
  existsb (λ r, String.eqb (admin_email r.2) em) (scan (rows a)).

(** [INSERT INTO admins (email, password_hash) VALUES (?,?)] *)
Definition insert_admin (f : fault) (now : Z) (em h : string) (a : admins)
  : result (Z * admins) :=
  guarded f
    (if admin_email_taken em a
     then Err "SQLITE_CONSTRAINT: UNIQUE constraint failed: admins.email"
     else
       let id := Z.max (max_rowid (rows a)) (admins_seq a) + 1 in
       Ok (id, {| rows := <[id := {| admin_email := em; password_hash := h;
                                     admin_created_at := now |}]> (rows a);
                  admins_seq := id |})).

(** [SELECT id, email, password_hash FROM admins WHERE email = ?], first row. *)
Definition select_admin (f : fault) (em : string) (a : admins)
  : result (option (Z * admin_row)) :=
  guarded f (Ok (find (λ r, String.eqb (admin_email r.2) em) (scan (rows a)))).

(** [POST /admin/register], after its middleware. *)
Definition register {B : Bcrypt} (f : fault) (now : Z) (salt : string)
  (c : credentials) (a : admins) : admin_reply * admins :=
  match hashPasswordMiddleware salt c with
  | inl reply => (reply, a)
  | inr h =>
      if Js.falsy (h_email h) || Js.falsy (h_password_hash h)
      then (AReply 400 (AError "email & password required"), a)
      else
        match insert_admin f now (text (h_email h)) (text (h_password_hash h)) a with
        | Err m =>
            if negb (Js.falsy (Some m)) && Js.includes m "UNIQUE"
            then (AReply 409 (AError "Admin email exists"), a)
            else (AReply 500 (AError m), a)
        | Ok (id, a') => (AReply 200 (ARegistered id), a')
        end
  end.

(** [POST /admin/login]: the reply and the session of the client after it. *)
Definition login {B : Bcrypt} (f : fault) (c : credentials) (a : admins)
  (s : session) : admin_reply * session :=
  if Js.falsy (c_email c) || Js.falsy (c_password c)
  then (AReply 400 (AError "email & password required"), s)
  else
    match select_admin f (text (c_email c)) a with
    | Err m => (AReply 500 (AError m), s)
    | Ok None => (AReply 401 (AError "Invalid credentials"), s)
    | Ok (Some row) =>
        if bcrypt_compare (text (c_password c)) (password_hash row.2)
        then (AReply 200 ASuccess,
              {| adminId := Some row.1; adminEmail := Some (admin_email row.2) |})
        else (AReply 401 (AError "Invalid credentials"), s)
    end.

(** [POST /admin/logout]: [req.session.destroy]. *)
Definition logout (s : session) : admin_reply * option session :=
  (AReply 200 ASuccess, None).

(** The session that a request without a session cookie starts with. *)
Definition new_session : session := {| adminId := None; adminEmail := None |}.

(** An instance for the examples: the hash is the salt and the password
    behind a version tag, and a password matches a hash that ends with it. *)
Fixpoint ends_with (s suffix : string) : bool :=
  String.eqb s suffix ||
  match s with
  | EmptyString => false
  | String _ s' => ends_with s' suffix
  end.

Definition toy_bcrypt : Bcrypt :=
  {| bcrypt_hash := λ salt password, "$2b$10$" +:+ salt +:+ "$" +:+ password;
     bcrypt_compare := λ password h, ends_with h ("$" +:+ password) |}.

Definition root_credentials : credentials :=
  {| c_email := Some "root@example.org"; c_password := Some "s3cret" |}.

Definition root_registered : admins :=
  (register (B := toy_bcrypt) None 50 "abcdefghijklmnopqrstuv"
            root_credentials no_admins).2.

End Admin.

(** Reading the hexadecimal part of a key back into bytes. *)
Module Hex.

Definition hex_value (c : ascii) : option N :=
  let n := N_of_ascii c in
  if ((48 <=? n) && (n <=? 57))%N then Some (n - 48)%N
  else if ((65 <=? n) && (n <=? 70))%N then Some (n - 55)%N
  else None.

Fixpoint parse_hex (s : string) : option (list Byte.byte) :=
  match s with
  | EmptyString => Some []
  | String c1 (String c2 s') =>
      match hex_value c1, hex_value c2, parse_hex s' with
      | Some h, Some l, Some bytes =>
          match Byte.of_N (16 * h + l) with
          | Some b => Some (b :: bytes)
          | None => None
          end
      | _, _, _ => None
      end
  | String _ EmptyString => None
  end.

End Hex.

(** The console of the browser page (index.js, lines 306-428, the part that
    is public/ui.js): the console box, as the markup that was assigned to
    the [innerHTML] of each of its lines, and [handleCommand].  How the
    browser reads that markup is outside the model.  A character is a code
    unit below 256. *)
Module Console.

(** The white space and the line terminators that [trim] removes. *)
Definition is_space (c : ascii) : bool :=
  let n := N_of_ascii c in
  ((9 <=? n) && (n <=? 13) || (n =? 32) || (n =? 160))%N.

Fixpoint trimStart (s : string) : string :=
  match s with
  | EmptyString => EmptyString
  | String c s' => if is_space c then trimStart s' else s
  end.

Fixpoint trimEnd (s : string) : string :=
  match s with
  | EmptyString => EmptyString
  | String c s' =>
      match trimEnd s' with
      | EmptyString => if is_space c then EmptyString else String c EmptyString
      | t => String c t
      end
  end.

Definition trim (s : string) : string := trimEnd (trimStart s).

Definition char_toLowerCase (c : ascii) : ascii :=
  let n := N_of_ascii c in
  if ((65 <=? n) && (n <=? 90) ||
      (192 <=? n) && (n <=? 222) && negb (n =? 215))%N
  then ascii_of_N (n + 32) else c.

Fixpoint toLowerCase (s : string) : string :=
  match s with
  | EmptyString => EmptyString
  | String c s' => String (char_toLowerCase c) (toLowerCase s')
  end.

(** [s.split(' ')]: the pieces between the spaces. *)
Fixpoint split_spaces (s : string) : list string :=
  match s with
  | EmptyString => [EmptyString]
  | String c s' =>
      if Ascii.eqb c " " then EmptyString :: split_spaces s'
      else match split_spaces s' with
           | piece :: rest => String c piece :: rest
           | [] => [String c EmptyString]
           end
  end.

(** [v || dflt] for a string that may be [undefined]. *)
Definition or_default (v : option string) (dflt : string) : string :=
  if Js.falsy v then dflt else Api.text v.

(** A line of the console box: the markup assigned to its [innerHTML]. *)
Definition line : Type := string.

(** The template literal of [printToConsole] (index.js, line 326): a span
    whose style attribute, between double quotes, sets the colour, around
    the text as it is. *)
Definition span_markup (text : string) (color : string) : string :=
  "<span style=" +:+
  String Js.dquote ("color:" +:+ color +:+
                    String Js.dquote (">" +:+ text +:+ "</span>")).

(** [printToConsole(text, color)]: a new line with that markup as its
    [innerHTML] is appended to the box. *)
Definition printToConsole (text : string) (color : string) (box : list line)
  : list line :=
  box ++ [span_markup text color].

Definition help_text : string :=
  "Commands: help, about, clear, time, testapi /api/test, validate /api/validate?key=...".

(** [handleCommand(cmd)]: the console box after the command, and the
    endpoint handed to [fetchAPI] if there is one; [time] is the text of
    [new Date().toLocaleTimeString()]. *)
Definition handleCommand (time : string) (cmd : string) (box : list line)
  : list line * option string :=
  let command := toLowerCase (trim cmd) in
  if Js.falsy (Some command) then (box, None)
  else
    let box := printToConsole ("> " +:+ command) "#ff007c" box in
    if String.eqb command "help" then (printToConsole help_text "#9f" box, None)
    else if String.eqb command "about"
    then (printToConsole "UwUntu Cyber Console — API Key Generator Interface."
            "#00ff88" box, None)
    else if String.eqb command "time"
    then (printToConsole ("System time: " +:+ time) "#00fff0" box, None)
    else if String.eqb command "clear" then ([], None)
    else if String.prefix "testapi" command
    then (box, Some (or_default (split_spaces command !! 1%nat) "/api/test"))
    else (printToConsole ("Unknown command: " +:+ command) "#ff0044" box, None).

End Console.

(** ** Properties *)

Import Sqlite Api Props.

(** *** Table scans *)

#[global] Instance rowid_le_total {A : Type} : Total (@rowid_le A).
Proof. intros x y. unfold rowid_le. lia. Qed.

#[global] Instance rowid_le_trans {A : Type} : Transitive (@rowid_le A).
Proof. intros x y z. unfold rowid_le. lia. Qed.

Lemma elem_of_scan {A : Type} (m : gmap Z A) (i : Z) (x : A) :
  (i, x) ∈ scan m ↔ m !! i = Some x.
Proof.
  unfold scan. rewrite merge_sort_Permutation. apply elem_of_map_to_list.
Qed.

Lemma scan_sorted {A : Type} (m : gmap Z A) : StronglySorted rowid_le (scan m).
Proof. apply StronglySorted_merge_sort; apply _. Qed.

Lemma scan_NoDup_ids {A : Type} (m : gmap Z A) : NoDup (scan m).*1.
Proof.
  unfold scan. rewrite merge_sort_Permutation. apply NoDup_fst_map_to_list.
Qed.

Lemma sorted_NoDup_strict {A : Type} (l : list (Z * A)) :
  StronglySorted rowid_le l → NoDup l.*1 → StronglySorted Z.lt l.*1.
Proof.
  induction 1 as [|x l Hl IH Hx]; intros Hnd; simpl; [constructor|].
  apply NoDup_cons in Hnd as [Hnotin Hnd].
  constructor; [auto|].
  apply Forall_fmap, Forall_forall. intros y Hy.
  assert (x.1 ≤ y.1) by (rewrite Forall_forall in Hx; exact (Hx y Hy)).
  assert (x.1 ≠ y.1).
  { intros E. apply Hnotin. rewrite E. apply list_elem_of_fmap. eauto. }
  simpl. lia.
Qed.

Lemma scan_ids_ascending {A : Type} (m : gmap Z A) :
  StronglySorted Z.lt (scan m).*1.
Proof. apply sorted_NoDup_strict; [apply scan_sorted | apply scan_NoDup_ids]. Qed.

Lemma max_rowid_ge {A : Type} (m : gmap Z A) (i : Z) (x : A) :
  m !! i = Some x → i ≤ max_rowid m.
Proof.
  intros H. apply elem_of_map_to_list in H. unfold max_rowid.
  induction (map_to_list m) as [|r l IH]; [inversion H|].
  apply elem_of_cons in H as [<- | H]; simpl; [lia|].
  specialize (IH H). lia.
Qed.

Lemma existsb_scan {A : Type} (p : Z * A → bool) (m : gmap Z A) :
  existsb p (scan m) = true ↔ ∃ i x, m !! i = Some x ∧ p (i, x) = true.
Proof.
  rewrite existsb_exists. split.
  - intros [[i x] [Hin Hp]]. exists i, x. split; [|done].
    apply elem_of_scan, list_elem_of_In, Hin.
  - intros (i & x & Hm & Hp). exists (i, x). split; [|done].
    apply list_elem_of_In, elem_of_scan, Hm.
Qed.

Lemma email_taken_iff (em : string) (t : tables) :
  email_taken em t = true ↔ ∃ i u, users t !! i = Some u ∧ email u = em.
Proof.
  unfold email_taken. rewrite existsb_scan.
  split; intros (i & u & H & E); exists i, u; (split; [done|]); simpl in *.
  - by apply String.eqb_eq.
  - by apply String.eqb_eq.
Qed.

Lemma key_taken_iff (k : string) (t : tables) :
  key_taken k t = true ↔ ∃ i a, apikeys t !! i = Some a ∧ api_key a = k.
Proof.
  unfold key_taken. rewrite existsb_scan.
  split; intros (i & u & H & E); exists i, u; (split; [done|]); simpl in *.
  - by apply String.eqb_eq.
  - by apply String.eqb_eq.
Qed.

Lemma find_scan_unique {A : Type} (p : Z * A → bool) (m : gmap Z A) i x :
  m !! i = Some x → p (i, x) = true →
  (∀ j y, m !! j = Some y → p (j, y) = true → j = i) →
  find p (scan m) = Some (i, x).
Proof.
  intros Hm Hp Huniq.
  destruct (find p (scan m)) as [[j y]|] eqn:Hf.
  - apply find_some in Hf as [Hin Hpj].
    apply list_elem_of_In, elem_of_scan in Hin.
    assert (j = i) as -> by eauto. congruence.
  - exfalso. eapply find_none in Hf.
    + rewrite Hp in Hf. discriminate.
    + apply list_elem_of_In, elem_of_scan, Hm.
Qed.

(** *** Key format *)

Lemma class_upper_hex (c : ascii) :
  existsb (Js.in_range c) [("A", "F"); ("0", "9")]%char = true ↔ upper_hex c.
Proof.
  unfold upper_hex.
  rewrite <- (bool_decide_eq_true (c ∈ list_ascii_of_string "0123456789ABCDEF")).
  assert (existsb (Js.in_range c) [("A", "F"); ("0", "9")]%char =
          bool_decide (c ∈ list_ascii_of_string "0123456789ABCDEF")) as ->; [|done].
  destruct c as [[] [] [] [] [] [] [] []]; vm_compute; reflexivity.
Qed.

Lemma re_test_literal (p : string) (re : list Js.re_atom) (s : string) :
  Js.re_test (Js.re_literal p ++ re) s = true ↔
  ∃ h, s = p +:+ h ∧ Js.re_test re h = true.
Proof.
  revert s. induction p as [|c p IH]; intros s; simpl.
  - split; [eauto | intros (h & -> & H); done].
  - destruct s as [|c' s]; simpl.
    + split; [done | intros (h & E & _); discriminate].
    + rewrite andb_true_iff, IH, Ascii.eqb_eq. split.
      * intros [-> (h & -> & H)]. eauto.
      * intros (h & E & H). injection E as -> ->. eauto.
Qed.

Lemma re_test_class (rs : list (ascii * ascii)) (n : nat) (s : string) :
  Js.re_test (repeat (Js.Class rs) n) s = true ↔
  String.length s = n ∧
  Forall (λ c, existsb (Js.in_range c) rs = true) (list_ascii_of_string s).
Proof.
  revert s. induction n as [|n IH]; intros [|c s]; simpl.
  - split; [by split; [|constructor] | done].
  - split; [done | intros [? _]; discriminate].
  - split; [done | intros [? _]; discriminate].
  - rewrite andb_true_iff, IH, Forall_cons. split.
    + intros [? [? ?]]. split; [congruence | done].
    + intros [E [? ?]]. injection E as E. done.
Qed.

Lemma key_re_format (k : string) : Js.re_test key_re k = true ↔ key_format k.
Proof.
  unfold key_re, key_format. rewrite re_test_literal.
  split; intros (h & -> & H); exists h; (split; [done|]).
  - apply re_test_class in H as [Hlen Hall]. split; [done|].
    eapply Forall_impl; [exact Hall|]. intros c. apply class_upper_hex.
  - apply re_test_class. destruct H as [Hlen Hall]. split; [done|].
    eapply Forall_impl; [exact Hall|]. intros c. apply class_upper_hex.
Qed.

Lemma toUpperCase_app (s1 s2 : string) :
  Js.toUpperCase (s1 +:+ s2) = Js.toUpperCase s1 +:+ Js.toUpperCase s2.
Proof. induction s1 as [|c s1 IH]; simpl; [done | by rewrite IH]. Qed.

Lemma list_ascii_app (s1 s2 : string) :
  list_ascii_of_string (s1 +:+ s2) =
  list_ascii_of_string s1 ++ list_ascii_of_string s2.
Proof. induction s1 as [|c s1 IH]; simpl; [done | by rewrite IH]. Qed.

Lemma byte_hex_upper (b : Byte.byte) :
  ∃ c1 c2, Js.toUpperCase (Js.byte_hex b) = String c1 (String c2 EmptyString) ∧
           upper_hex c1 ∧ upper_hex c2.
Proof.
  eexists _, _. split; [reflexivity|].
  rewrite <- !class_upper_hex. destruct b; vm_compute; done.
Qed.

Lemma hex_upper_digits (buf : list Byte.byte) :
  String.length (Js.toUpperCase (Js.toString_hex buf)) = (2 * length buf)%nat ∧
  Forall upper_hex (list_ascii_of_string (Js.toUpperCase (Js.toString_hex buf))).
Proof.
  induction buf as [|b buf [IHlen IHall]]; [by split; [|constructor]|].
  cbn [Js.toString_hex length]. rewrite toUpperCase_app.
  destruct (byte_hex_upper b) as (c1 & c2 & -> & H1 & H2).
  change (String c1 (String c2 EmptyString) +:+ ?x) with (String c1 (String c2 x)).
  simpl. split; [rewrite IHlen; lia|]. by repeat (constructor; [assumption|]).
Qed.

Lemma makeApiKey_format (rnd : list Byte.byte) :
  length rnd = 8%nat → key_format (makeApiKey rnd).
Proof.
  intros Hlen. exists (Js.toUpperCase (Js.toString_hex rnd)).
  destruct (hex_upper_digits rnd) as [Hl Hall].
  split; [done|]. split; [|done]. rewrite Hl, Hlen. done.
Qed.

Lemma length_append (s1 s2 : string) :
  String.length (s1 +:+ s2) = (String.length s1 + String.length s2)%nat.
Proof.
  induction s1 as [|c s1 IH]; [done|].
  change (S (String.length (s1 +:+ s2)) = S (String.length s1 + String.length s2)).
  by rewrite IH.
Qed.

(** A string of another length than 27 is outside the key format. *)
Lemma key_format_length (k : string) : key_format k → String.length k = 27%nat.
Proof. intros (h & -> & Hlen & _). rewrite length_append, Hlen. reflexivity. Qed.

Lemma upper_hex_fixed (c : ascii) : upper_hex c → Js.char_toUpperCase c = c.
Proof.
  unfold upper_hex. simpl. rewrite !elem_of_cons, elem_of_nil.
  intros H. repeat (destruct H as [->|H]; [reflexivity|]). done.
Qed.

(** A string with a lower-case letter is outside the key format. *)
Lemma key_format_upper (k : string) : key_format k → Js.toUpperCase k = k.
Proof.
  intros (h & -> & _ & Hall). rewrite toUpperCase_app. f_equal.
  induction h as [|c h IH]; [done|].
  apply Forall_cons in Hall as [Hc Hall]. simpl.
  by rewrite (upper_hex_fixed c Hc), IH.
Qed.

(** *** Statements of the store *)

Lemma falsy_false (v : option string) :
  Js.falsy v = false ↔ ∃ s, v = Some s ∧ s ≠ EmptyString.
Proof.
  destruct v as [s|]; simpl.
  - destruct (String.eqb_spec s EmptyString) as [->|Hne]; split.
    + done.
    + intros (s & [= <-] & H). done.
    + eauto.
    + done.
  - split; [done | intros (s & E & _); done].
Qed.

Lemma insert_user_ok f now fn ln em d uid d1 :
  insert_user f now fn ln em d = Ok (uid, d1) →
  f = None ∧ email_taken em (tbl d) = false ∧ users (tbl d) !! uid = None ∧
  d1 = set_tbl d
         {| users := <[uid := {| firstname := fn; lastname := ln; email := em;
                                 is_online := 0; last_seen := None;
                                 created_at := now |}]> (users (tbl d));
            apikeys := apikeys (tbl d);
            users_seq := uid |}.
Proof.
  unfold insert_user, guarded. destruct f as [m|]; [done|].
  destruct (email_taken em (tbl d)) eqn:E; [done|].
  intros [= <- <-]. repeat split.
  destruct (users (tbl d) !! _) as [u|] eqn:Hu; [|done].
  apply max_rowid_ge in Hu. lia.
Qed.

Lemma insert_apikey_ok f now id k d d2 :
  insert_apikey f now id k d = Ok d2 →
  f = None ∧ apikeys (tbl d) !! id = None ∧ key_taken k (tbl d) = false ∧
  d2 = set_tbl d
         {| users := users (tbl d);
            apikeys := <[id := {| api_key := k; apikey_created_at := now |}]>
                         (apikeys (tbl d));
            users_seq := users_seq (tbl d) |}.
Proof.
  unfold insert_apikey, guarded. destruct f as [m|]; [done|].
  destruct (apikeys (tbl d) !! id) eqn:Ha; [done|].
  destruct (key_taken k (tbl d)) eqn:Hk; [done|].
  destruct (foreign_keys d), (users (tbl d) !! id); try done;
    intros [= <-]; done.
Qed.

Lemma insert_apikey_collision f now id k d :
  key_taken k (tbl d) = true → ∃ m, insert_apikey f now id k d = Err m.
Proof.
  intros Hk. unfold insert_apikey, guarded. destruct f as [m|]; [eauto|].
  destruct (apikeys (tbl d) !! id); [eauto|]. rewrite Hk. eauto.
Qed.

Lemma insert_apikey_fault m now id k d :
  insert_apikey (Some m) now id k d = Err m.
Proof. reflexivity. Qed.

(** *** saveUser *)

(** [saveUser], branch by branch. *)
Lemma saveUser_unfold fu fk fd fg tu tk b d :
  saveUser fu fk fd fg tu tk b d =
  if Js.falsy (r_firstname b) || Js.falsy (r_lastname b) ||
     Js.falsy (r_email b) || Js.falsy (r_apiKey b)
  then (Reply 400 (BError "firstname, lastname, email and apiKey required" None), d)
  else
    match insert_user fu tu (text (r_firstname b)) (text (r_lastname b))
                      (text (r_email b)) d with
    | Err m =>
        if negb (Js.falsy (Some m)) && Js.includes m "UNIQUE"
        then (Reply 409 (BError "Email already exists" None), d)
        else (Reply 500 (BError "DB insert user failed" (Some m)), d)
    | Ok (userId, d1) =>
        match insert_apikey fk tk userId (text (r_apiKey b)) d1 with
        | Err m2 =>
            (Reply 500 (BError "DB insert apikey failed" (Some m2)),
             match delete_user fd (Js.Int userId) d1 with
             | Ok d2 => d2
             | Err _ => d1
             end)
        | Ok d2 =>
            match select_saved fg userId d2 with
            | Err m => (Reply 500 (BError "DB fetch after save failed" (Some m)), d2)
            | Ok None => (Uncaught "TypeError: row is undefined", d2)
            | Ok (Some row) => (Reply 200 (BSaved row), d2)
            end
        end
    end.
Proof.
  unfold saveUser, saveUser_route.
  destruct (_ || _); [done|].
  destruct (insert_user _ _ _ _ _ _) as [[uid d1]|m]; [|by destruct (_ && _)].
  destruct (insert_apikey _ _ _ _ _) as [d2|m2]; [|done].
  by destruct (select_saved _ _ _) as [[row|]|m].
Qed.

Lemma saveUser_saved fu fk fd fg tu tk b d row d2 :
  saveUser fu fk fd fg tu tk b d = (Reply 200 (BSaved row), d2) →
  complete b ∧ persisted d2 (j_id row) (text (r_apiKey b)) ∧
  j_api_key row = Some (text (r_apiKey b)).
Proof.
  rewrite saveUser_unfold.
  destruct (Js.falsy (r_firstname b)) eqn:E1; [done|].
  destruct (Js.falsy (r_lastname b)) eqn:E2; [done|].
  destruct (Js.falsy (r_email b)) eqn:E3; [done|].
  destruct (Js.falsy (r_apiKey b)) eqn:E4; [done|]. simpl.
  destruct (insert_user _ _ _ _ _ _) as [[uid d1]|m] eqn:Hu.
  2:{ by destruct (_ && _). }
  destruct (insert_apikey _ _ _ _ _) as [d2'|m2] eqn:Hk; [|done].
  apply insert_user_ok in Hu as (-> & _ & Hfresh & ->).
  apply insert_apikey_ok in Hk as (-> & Hnone & Hfree & ->).
  unfold select_saved, guarded. destruct fg as [m|]; [done|]. simpl in *.
  rewrite lookup_insert_eq. simpl. intros [= <- <-]. simpl.
  rewrite lookup_insert_eq. simpl.
  split; [done|]. split; [|done].
  split; [|split]; simpl.
  - rewrite lookup_insert_eq. eauto.
  - rewrite lookup_insert_eq. eauto.
  - intros j a Ha Hka. destruct (decide (uid = j)) as [->|Hne]; [done|].
    rewrite lookup_insert_ne in Ha by done.
    assert (key_taken (text (r_apiKey b)) (tbl d) = true) as Ht.
    { apply key_taken_iff. eauto. }
    unfold key_taken in *. simpl in Hfree. congruence.
Qed.

(** The fetch that follows two successful inserts finds its row: no
    exception escapes from [saveUser]. *)
Lemma saveUser_replies fu fk fd fg tu tk b d :
  ∃ st body, (saveUser fu fk fd fg tu tk b d).1 = Reply st body.
Proof.
  rewrite saveUser_unfold. destruct (_ || _); [by eexists _, _|].
  destruct (insert_user _ _ _ _ _ _) as [[uid d1]|m] eqn:Hu.
  2:{ destruct (_ && _); by eexists _, _. }
  destruct (insert_apikey _ _ _ _ _) as [d2|m2] eqn:Hk; [|by eexists _, _].
  apply insert_user_ok in Hu as (_ & _ & _ & ->).
  apply insert_apikey_ok in Hk as (_ & _ & _ & ->).
  unfold select_saved, guarded. destruct fg as [m|]; [by eexists _, _|].
  simpl. rewrite lookup_insert_eq. by eexists _, _.
Qed.

(** *** validateKey *)

Lemma key_format_nonempty (k : string) : key_format k → Js.falsy (Some k) = false.
Proof. intros (h & -> & _). reflexivity. Qed.

Lemma validateKey_persisted (d : db) (id : Z) (k : string) (t : Z) :
  persisted d id k → key_format k →
  ∃ r d', validateKey None None t (Some k) d = (r, d') ∧ valid_reply k r ∧
          persisted d' id k ∧
          ∃ u, users (tbl d') !! id = Some u ∧
               last_seen u = Some t ∧ is_online u = 1.
Proof.
  intros ([u Hu] & (a & Ha & Hk) & Huniq) Hfmt. unfold validateKey.
  rewrite (key_format_nonempty k Hfmt).
  apply key_re_format in Hfmt. change (text (Some k)) with k.
  rewrite Hfmt. cbn [negb]. unfold select_apikey, guarded.
  rewrite (find_scan_unique _ _ id a Ha).
  - simpl. eexists _, _. split; [reflexivity|]. rewrite Hk.
    split; [by eexists|]. simpl. split.
    + split; [|split]; simpl.
      * rewrite lookup_alter_eq, Hu. simpl. eauto.
      * eauto.
      * done.
    + rewrite lookup_alter_eq, Hu. simpl. eauto.
  - simpl. by apply String.eqb_eq.
  - simpl. intros j b Hb E. apply String.eqb_eq in E. eauto.
Qed.

Lemma validate_each_persisted (times : list Z) (d : db) (id : Z) (k : string) :
  persisted d id k → key_format k →
  Forall (valid_reply k) (validate_each times k d).1 ∧
  length (validate_each times k d).1 = length times ∧
  persisted (validate_each times k d).2 id k ∧
  ∀ t, last times = Some t →
       ∃ u, users (tbl (validate_each times k d).2) !! id = Some u ∧
            last_seen u = Some t ∧ is_online u = 1.
Proof.
  intros Hp Hfmt. revert d Hp.
  induction times as [|t rest IH]; intros d Hp.
  - simpl. split; [constructor|]. split; [done|]. split; [done|]. intros t [=].
  - cbn [validate_each].
    destruct (validateKey_persisted d id k t Hp Hfmt)
      as (r & d1 & Heq & Hr & Hp1 & Hseen).
    rewrite Heq. clear Heq.
    destruct (IH d1 Hp1) as (Hall & Hlen & Hp2 & Hlast).
    assert (∀ t', last (t :: rest) = Some t' →
              ∃ u, users (tbl (validate_each rest k d1).2) !! id = Some u ∧
                   last_seen u = Some t' ∧ is_online u = 1) as Hl.
    { intros t'. destruct rest as [|t2 rest'];
        [intros [= <-]; exact Hseen | apply Hlast]. }
    destruct (validate_each rest k d1) as [rs d2]. cbn [fst snd length] in *.
    split; [by constructor|]. split; [by rewrite Hlen|]. by split.
Qed.

Lemma complete_falsy (b : save_request) :
  complete b →
  Js.falsy (r_firstname b) || Js.falsy (r_lastname b) ||
  Js.falsy (r_email b) || Js.falsy (r_apiKey b) = false.
Proof. intros (-> & -> & -> & ->). reflexivity. Qed.

(** C1 (the code falls short of the claim): when the insert into users
    succeeds and the insert into apikeys fails, for whatever reason,
    [saveUser] replies 500 after it has only queued the [DELETE] of the row
    it inserted.  At the moment the reply is sent the user row is still
    stored.  The row is gone, and the users table is the one of before the
    call, once the [DELETE] has run; when the [DELETE] fails, its error is
    dropped and the row stays, a user without a key. *)
Theorem saveUser_apikey_failure_user_row
  (fu fk fd fg : fault) (tu tk : Z) (b : save_request) (d : db)
  (uid : Z) (d1 : db) (m2 : string) :
  complete b →
  insert_user fu tu (text (r_firstname b)) (text (r_lastname b))
              (text (r_email b)) d = Ok (uid, d1) →
  insert_apikey fk tk uid (text (r_apiKey b)) d1 = Err m2 →
  reply (saveUser_route fu fk fd fg tu tk b d) =
    Reply 500 (BError "DB insert apikey failed" (Some m2)) ∧
  at_reply (saveUser_route fu fk fd fg tu tk b d) = d1 ∧
  is_Some (users (tbl (at_reply (saveUser_route fu fk fd fg tu tk b d))) !! uid) ∧
  match fd with
  | None =>
      users (tbl (settled (saveUser_route fu fk fd fg tu tk b d))) !! uid = None ∧
      users (tbl (settled (saveUser_route fu fk fd fg tu tk b d))) = users (tbl d)
  | Some _ =>
      settled (saveUser_route fu fk fd fg tu tk b d) = d1 ∧
      is_Some (users (tbl (settled (saveUser_route fu fk fd fg tu tk b d))) !! uid)
  end.
Proof.
  intros Hb Hu Hk. unfold saveUser_route.
  rewrite (complete_falsy b Hb), Hu, Hk. cbn [reply at_reply settled].
  apply insert_user_ok in Hu as (_ & _ & Hfresh & ->).
  assert (is_Some (users (tbl (set_tbl d
            {| users := <[uid := {| firstname := text (r_firstname b);
                                    lastname := text (r_lastname b);
                                    email := text (r_email b); is_online := 0;
                                    last_seen := None; created_at := tu |}]>
                          (users (tbl d));
               apikeys := apikeys (tbl d);
               users_seq := uid |})) !! uid)) as Hin.
  { simpl. rewrite lookup_insert_eq. eauto. }
  split; [done|]. split; [done|]. split; [done|].
  destruct fd as [m|]; [by split|].
  unfold delete_user, guarded, delete_user_rows. simpl.
  rewrite lookup_insert_eq. simpl. split.
  - apply lookup_delete_eq.
  - rewrite delete_insert_eq. by apply delete_id.
Qed.

Lemma saveUser_apikey_failure_user_row_witness :
  reply (saveUser_route None None (Some "SQLITE_BUSY: database is locked") None
           200 201 bob_request ann_saved) =
    Reply 500 (BError "DB insert apikey failed"
      (Some "SQLITE_CONSTRAINT: UNIQUE constraint failed: apikeys.api_key")) ∧
  is_Some (users (tbl (at_reply
    (saveUser_route None None None None 200 201 bob_request ann_saved))) !! 2) ∧
  is_Some (users (tbl (settled
    (saveUser_route None None (Some "SQLITE_BUSY: database is locked") None
       200 201 bob_request ann_saved))) !! 2) ∧
  apikeys (tbl (settled
    (saveUser_route None None (Some "SQLITE_BUSY: database is locked") None
       200 201 bob_request ann_saved))) !! 2 = None.
Proof.
  pose proof (saveUser_apikey_failure_user_row
                None None (Some "SQLITE_BUSY: database is locked") None
                200 201 bob_request ann_saved 2
                (set_tbl ann_saved
                   {| users := <[2 := {| firstname := "Bob"; lastname := "Ray";
                                         email := "bob@example.org"; is_online := 0;
                                         last_seen := None; created_at := 200 |}]>
                                 (users (tbl ann_saved));
                      apikeys := apikeys (tbl ann_saved);
                      users_seq := 2 |})
                "SQLITE_CONSTRAINT: UNIQUE constraint failed: apikeys.api_key")
    as Hbusy.
  pose proof (saveUser_apikey_failure_user_row
                None None None None
                200 201 bob_request ann_saved 2
                (set_tbl ann_saved
                   {| users := <[2 := {| firstname := "Bob"; lastname := "Ray";
                                         email := "bob@example.org"; is_online := 0;
                                         last_seen := None; created_at := 200 |}]>
                                 (users (tbl ann_saved));
                      apikeys := apikeys (tbl ann_saved);
                      users_seq := 2 |})
                "SQLITE_CONSTRAINT: UNIQUE constraint failed: apikeys.api_key")
    as Hrun.
  destruct Hbusy as (Hreply & _ & _ & _ & Hstays);
    [repeat split | vm_compute; reflexivity | vm_compute; reflexivity |].
  destruct Hrun as (_ & _ & Hat & _);
    [repeat split | vm_compute; reflexivity | vm_compute; reflexivity |].
  split; [exact Hreply|]. split; [exact Hat|]. split; [exact Hstays|].
  vm_compute. reflexivity.
Defined.

(** C3: when a user with the e-mail address of the request is stored, a
    complete [saveUser] request is answered 409 [Email already exists] and
    the store is left as it was: no key row is created and the number of
    users is unchanged. *)
Theorem saveUser_duplicate_email
  (fk fd fg : fault) (tu tk : Z) (b : save_request) (d : db) (i : Z) (u : user_row) :
  complete b →
  users (tbl d) !! i = Some u →
  r_email b = Some (email u) →
  ∃ d', saveUser None fk fd fg tu tk b d =
          (Reply 409 (BError "Email already exists" None), d') ∧
        d' = d ∧
        apikeys (tbl d') = apikeys (tbl d) ∧
        size (users (tbl d')) = size (users (tbl d)).
Proof.
  intros Hb Hu He. exists d. split; [|done].
  rewrite saveUser_unfold. rewrite (complete_falsy b Hb).
  unfold insert_user, guarded.
  assert (email_taken (text (r_email b)) (tbl d) = true) as ->.
  { apply email_taken_iff. exists i, u. split; [done|]. by rewrite He. }
  reflexivity.
Qed.

Lemma saveUser_duplicate_email_witness :
  ∃ d', saveUser None None None None 200 201 ann_request ann_saved =
          (Reply 409 (BError "Email already exists" None), d') ∧
        d' = ann_saved ∧
        apikeys (tbl d') = apikeys (tbl ann_saved) ∧
        size (users (tbl d')) = size (users (tbl ann_saved)).
Proof.
  apply (saveUser_duplicate_email None None None 200 201 ann_request ann_saved 1
           {| firstname := "Ann"; lastname := "Lee"; email := "ann@example.org";
              is_online := 0; last_seen := None; created_at := 100 |}).
  - repeat split.
  - vm_compute. reflexivity.
  - reflexivity.
Defined.

(** C2: a key made by [makeApiKey] from eight random bytes has the key
    format; once [saveUser] has stored it, every validation of it, however
    many follow one another, replies [valid: true], and after each of them
    the [last_seen] of the owning user is the instant of that validation. *)
Theorem generated_key_validates
  (rnd : list Byte.byte) (fu fk fd fg : fault) (tu tk : Z) (b : save_request)
  (d : db) (row : joined_row) (d1 : db) (times : list Z) :
  length rnd = 8%nat →
  r_apiKey b = Some (makeApiKey rnd) →
  saveUser fu fk fd fg tu tk b d = (Reply 200 (BSaved row), d1) →
  key_format (makeApiKey rnd) ∧
  Forall (valid_reply (makeApiKey rnd))
         (validate_each times (makeApiKey rnd) d1).1 ∧
  length (validate_each times (makeApiKey rnd) d1).1 = length times ∧
  ∀ t, last times = Some t →
       ∃ u, users (tbl (validate_each times (makeApiKey rnd) d1).2) !! j_id row
              = Some u ∧
            last_seen u = Some t ∧ is_online u = 1.
Proof.
  intros Hlen Hkey Hsave.
  pose proof (makeApiKey_format rnd Hlen) as Hfmt.
  apply saveUser_saved in Hsave as (_ & Hp & _).
  rewrite Hkey in Hp. simpl in Hp.
  destruct (validate_each_persisted times d1 (j_id row) _ Hp Hfmt)
    as (Hall & Hl & _ & Hlast).
  done.
Qed.

Lemma generated_key_validates_witness :
  key_format (makeApiKey sample_bytes) ∧
  Forall (valid_reply (makeApiKey sample_bytes))
         (validate_each [200; 300] (makeApiKey sample_bytes) ann_saved).1 ∧
  length (validate_each [200; 300] (makeApiKey sample_bytes) ann_saved).1 = 2%nat ∧
  ∀ t, last [200; 300] = Some t →
       ∃ u, users (tbl (validate_each [200; 300] (makeApiKey sample_bytes)
                          ann_saved).2) !! 1 = Some u ∧
            last_seen u = Some t ∧ is_online u = 1.
Proof.
  apply (generated_key_validates sample_bytes None None None None 100 101
           ann_request open_db
           {| j_id := 1; j_firstname := "Ann"; j_lastname := "Lee";
              j_email := "ann@example.org"; j_user_created_at := 100;
              j_api_key := Some sample_key; j_apikey_created_at := Some 101;
              j_last_seen := None |}
           ann_saved [200; 300]).
  - reflexivity.
  - reflexivity.
  - vm_compute. reflexivity.
Defined.

Lemma key_format_empty : ¬ key_format EmptyString.
Proof. intros (h & E & _). discriminate E. Qed.

(** C9 (as amended): a key that is absent, or a string outside the key
    format, is refused with status 400 and the store is not touched; the
    reason is [invalid_format] for a non-empty string and [missing_key] for
    an absent key and for the empty string. *)
Theorem validateKey_rejects_malformed
  (fl fu : fault) (now : Z) (key : option string) (d : db) :
  (∀ k, key = Some k → ¬ key_format k) →
  validateKey fl fu now key d =
    (Reply 400 (BInvalid match key with
                         | Some (String _ _) => "invalid_format"
                         | _ => "missing_key"
                         end None), d).
Proof.
  intros Hbad. unfold validateKey.
  destruct key as [[|c k]|]; [reflexivity| |reflexivity].
  change (Js.falsy (Some (String c k))) with false.
  change (text (Some (String c k))) with (String c k).
  destruct (Js.re_test key_re (String c k)) eqn:E; [|reflexivity].
  apply key_re_format in E. by destruct (Hbad _ eq_refl).
Qed.

Lemma lowercase_key_not_in_format : ¬ key_format "UWUNTU-API-00ff1ab23c4d5e6f".
Proof. rewrite <- key_re_format. by vm_compute. Qed.

Lemma short_key_not_in_format : ¬ key_format "UWUNTU-API-00FF1AB23C4D5E6".
Proof. rewrite <- key_re_format. by vm_compute. Qed.

Lemma long_key_not_in_format : ¬ key_format "UWUNTU-API-00FF1AB23C4D5E6F0".
Proof. rewrite <- key_re_format. by vm_compute. Qed.

Lemma validateKey_rejects_malformed_witness :
  validateKey None None 200 (Some "UWUNTU-API-00ff1ab23c4d5e6f") ann_saved =
    (Reply 400 (BInvalid "invalid_format" None), ann_saved).
Proof.
  apply (validateKey_rejects_malformed None None 200
           (Some "UWUNTU-API-00ff1ab23c4d5e6f") ann_saved).
  intros k [= <-]. rewrite <- key_re_format. by vm_compute.
Defined.

(** C9, the claim as stated fails on the empty string: it is outside the
    key format, and the reason of the refusal is [missing_key], not
    [invalid_format]. *)
Lemma validateKey_empty_key_counterexample :
  ¬ key_format EmptyString ∧
  (validateKey None None 200 (Some EmptyString) ann_saved).1 =
    Reply 400 (BInvalid "missing_key" None) ∧
  (validateKey None None 200 (Some EmptyString) ann_saved).1 ≠
    Reply 400 (BInvalid "invalid_format" None).
Proof. split; [exact key_format_empty|]. split; [reflexivity | discriminate]. Qed.

Lemma apikeys_no_status_column (r : Z * apikey_row) :
  apikeys_field r "status" = None.
Proof. reflexivity. Qed.

(** C10: the status of every reply that reports a valid key is the string
    [active]: a row of apikeys has no [status] field, so the default of
    [row.status || 'active'] is what is sent. *)
Theorem validateKey_status_active
  (fl fu : fault) (now : Z) (key : option string) (d d' : db)
  (st : Z) (k : string) (s : value) (created : Z) (msg : string) :
  validateKey fl fu now key d = (Reply st (BValid k s created msg), d') →
  s = Str "active".
Proof.
  unfold validateKey.
  destruct (Js.falsy key); [done|].
  destruct (negb _); [done|].
  destruct (select_apikey fl (text key) d) as [[row|]|m]; [|done|done].
  rewrite apikeys_no_status_column. by intros [= _ _ <- _ _ _].
Qed.

Lemma validateKey_status_active_witness :
  validateKey None None 200 (Some sample_key) ann_saved =
    (Reply 200 (BValid sample_key (Str "active") 101
                  "API key valid dan last_seen diupdate."),
     (validateKey None None 200 (Some sample_key) ann_saved).2) ∧
  Str "active" = Str "active".
Proof.
  assert (validateKey None None 200 (Some sample_key) ann_saved =
          (Reply 200 (BValid sample_key (Str "active") 101
                        "API key valid dan last_seen diupdate."),
           (validateKey None None 200 (Some sample_key) ann_saved).2)) as H.
  { vm_compute. reflexivity. }
  split; [exact H|].
  exact (validateKey_status_active None None 200 (Some sample_key) ann_saved _
           200 sample_key (Str "active") 101 _ H).
Defined.

(** *** The session guard *)

Lemma is_admin_carries (s : option session) :
  is_admin s = true ↔ carries_admin_id s.
Proof.
  unfold carries_admin_id. destruct s as [[[id|] em]|]; simpl.
  - rewrite negb_true_iff, Z.eqb_neq. split.
    + intros H. by eexists _, id.
    + intros (sess & id' & [= <-] & [= <-] & H). done.
  - split; [done | intros (sess & id' & [= <-] & [=] & _)].
  - split; [done | intros (sess & id' & [=] & _)].
Qed.

(** C7: each of the four admin-management routes (list, revoke, export,
    delete) is answered 401 [Unauthorized], the store untouched, when the
    session carries no admin id, and is answered by its operation when the
    session carries one. *)
Theorem admin_routes_guarded
  (f1 f2 : fault) (now : Z) (s : option session) (r : admin_request) (d : db) :
  (¬ carries_admin_id s →
   admin_route f1 f2 now s r d = (Reply 401 (BError "Unauthorized" None), d)) ∧
  (carries_admin_id s →
   admin_route f1 f2 now s r d = admin_handler f1 f2 now r d).
Proof.
  rewrite <- is_admin_carries.
  split; intros H; destruct r; unfold admin_route, admin_handler, requireAdmin;
    destruct (is_admin s); done.
Qed.

Lemma admin_routes_guarded_witness :
  (¬ carries_admin_id None →
   admin_route None None 300 None (PostRevoke (Js.Int 1)) ann_saved =
     (Reply 401 (BError "Unauthorized" None), ann_saved)) ∧
  (carries_admin_id (Some {| adminId := Some 1; adminEmail := Some "root@example.org" |}) →
   admin_route None None 300
     (Some {| adminId := Some 1; adminEmail := Some "root@example.org" |})
     GetUsers ann_saved =
   admin_handler None None 300 GetUsers ann_saved).
Proof.
  split.
  - apply (admin_routes_guarded None None 300 None (PostRevoke (Js.Int 1)) ann_saved).
  - apply (admin_routes_guarded None None 300
             (Some {| adminId := Some 1; adminEmail := Some "root@example.org" |})
             GetUsers ann_saved).
Defined.

(** *** revokeKey *)

(** C8: without a fault [revokeKey] replies success and leaves exactly the
    key rows other than the one of the given id; when there is no such row
    the store is unchanged, and a second call changes nothing; whatever
    happens, the users table is not touched. *)
Theorem revokeKey_idempotent_keeps_user (id : Js.number) (d : db) :
  ∃ d', revokeKey None id d = (Reply 200 BSuccess, d') ∧
        apikeys (tbl d') = without id (apikeys (tbl d)) ∧
        (∀ z, id = Js.Int z → apikeys (tbl d') !! z = None) ∧
        ((∀ z, id = Js.Int z → apikeys (tbl d) !! z = None) → d' = d) ∧
        revokeKey None id d' = (Reply 200 BSuccess, d') ∧
        ∀ f, users (tbl (revokeKey f id d).2) = users (tbl d).
Proof.
  destruct d as [[us ks seq] fk tx].
  unfold revokeKey, delete_apikey, guarded, set_tbl. eexists.
  split; [reflexivity|]. destruct id as [|z|]; simpl.
  - repeat split; try done. by intros [m|].
  - split; [done|]. split; [intros ? [= <-]; apply lookup_delete_eq|].
    split; [intros H; by rewrite delete_id by eauto|].
    split; [|by intros [m|]].
    by rewrite delete_delete_eq.
  - repeat split; try done. by intros [m|].
Qed.

Lemma revokeKey_idempotent_keeps_user_witness :
  ∃ d', revokeKey None (Js.Int 1) ann_saved = (Reply 200 BSuccess, d') ∧
        apikeys (tbl d') = without (Js.Int 1) (apikeys (tbl ann_saved)) ∧
        (∀ z, Js.Int 1 = Js.Int z → apikeys (tbl d') !! z = None) ∧
        ((∀ z, Js.Int 1 = Js.Int z → apikeys (tbl ann_saved) !! z = None) →
         d' = ann_saved) ∧
        revokeKey None (Js.Int 1) d' = (Reply 200 BSuccess, d') ∧
        ∀ f, users (tbl (revokeKey f (Js.Int 1) ann_saved).2) =
             users (tbl ann_saved).
Proof. exact (revokeKey_idempotent_keeps_user (Js.Int 1) ann_saved). Defined.

(** *** deleteUser *)

Lemma deleteUser_in_transaction (d : db) :
  txn d = None →
  txn (begin_transaction (pragma_foreign_keys_on d)) = Some (tbl d) ∧
  tbl (begin_transaction (pragma_foreign_keys_on d)) = tbl d.
Proof.
  intros H. unfold begin_transaction, pragma_foreign_keys_on. by rewrite H.
Qed.

(** C4: [deleteUser] replies 400 [invalid id], the store untouched, when the
    id is falsy (zero or not a number).  Otherwise, starting outside a
    transaction, it deletes the key row and then the user row inside one
    transaction: when the first delete fails, or the second one after the
    key row was deleted, it replies 500 and the rollback leaves the tables
    as they were before the call; when both succeed it commits the tables
    without the two rows. *)
Theorem deleteUser_atomic (fk fu : fault) (id : Js.number) (d : db) :
  txn d = None →
  deleteUser fk fu id d =
    if Js.falsy_number id then (Reply 400 (BError "invalid id" None), d)
    else
      match fk, fu with
      | Some m, _ =>
          (Reply 500 (BError "delete_keys_failed" (Some m)),
           {| tbl := tbl d; foreign_keys := true; txn := None |})
      | None, Some m =>
          (Reply 500 (BError "delete_user_failed" (Some m)),
           {| tbl := tbl d; foreign_keys := true; txn := None |})
      | None, None =>
          (Reply 200 BSuccess,
           {| tbl := {| users := without id (users (tbl d));
                        apikeys := without id (apikeys (tbl d));
                        users_seq := users_seq (tbl d) |};
              foreign_keys := true; txn := None |})
      end.
Proof.
  intros Htx. destruct d as [[us ks seq] fkeys tx]. simpl in Htx. subst tx.
  unfold deleteUser. destruct (Js.falsy_number id) eqn:Hid; [done|].
  destruct fk as [m|]; [done|].
  destruct fu as [m|]; [by destruct id|].
  destruct id as [|z|]; try done.
  unfold delete_apikey, delete_user, delete_user_rows, guarded, commit,
    begin_transaction, pragma_foreign_keys_on, set_tbl. simpl.
  destruct (us !! z) as [u|] eqn:Hu; simpl.
  - by rewrite delete_delete_eq.
  - rewrite (delete_id us z) by done. done.
Qed.

Lemma deleteUser_atomic_witness :
  txn ann_saved = None ∧
  deleteUser None (Some "SQLITE_IOERR: disk I/O error") (Js.Int 1) ann_saved =
    (Reply 500 (BError "delete_user_failed" (Some "SQLITE_IOERR: disk I/O error")),
     {| tbl := tbl ann_saved; foreign_keys := true; txn := None |}).
Proof.
  split; [reflexivity|].
  apply (deleteUser_atomic None (Some "SQLITE_IOERR: disk I/O error")
           (Js.Int 1) ann_saved).
  reflexivity.
Defined.

(** Every handler that starts outside a transaction ends outside one: no
    transaction is open when a request arrives, along every run that starts
    from [open_db]. *)
Lemma set_tbl_txn (d : db) (t : tables) : txn (set_tbl d t) = txn d.
Proof. reflexivity. Qed.

Lemma rollback_txn (d : db) : txn (rollback d) = None.
Proof. unfold rollback. by destruct (txn d) eqn:E. Qed.

Lemma saveUser_autocommit fu fk fd fg tu tk b d :
  txn d = None → txn (saveUser fu fk fd fg tu tk b d).2 = None.
Proof.
  intros H. rewrite saveUser_unfold.
  destruct (_ || _); [done|].
  destruct (insert_user _ _ _ _ _ _) as [[uid d1]|m] eqn:Hu.
  2:{ by destruct (_ && _). }
  apply insert_user_ok in Hu as (_ & _ & _ & ->).
  destruct (insert_apikey _ _ _ _ _) as [d2|m2] eqn:Hk.
  - apply insert_apikey_ok in Hk as (_ & _ & _ & ->).
    by destruct (select_saved _ _ _) as [[row|]|m].
  - destruct fd as [m|]; [done|].
    unfold delete_user, guarded, delete_user_rows. simpl.
    rewrite lookup_insert_eq. done.
Qed.

Lemma validateKey_autocommit fl fu now key d :
  txn d = None → txn (validateKey fl fu now key d).2 = None.
Proof.
  intros H. unfold validateKey.
  destruct (Js.falsy key); [done|]. destruct (negb _); [done|].
  destruct (select_apikey _ _ _) as [[row|]|m]; [|done|done].
  by destruct fu.
Qed.

Lemma admin_route_autocommit f1 f2 now s r d :
  txn d = None → txn (admin_route f1 f2 now s r d).2 = None.
Proof.
  intros H. destruct r; unfold admin_route, requireAdmin;
    destruct (is_admin s); try done.
  - unfold listUsers. by destruct f1.
  - unfold revokeKey. destruct f1; [done|]. by destruct id.
  - unfold exportCsv. by destruct f1.
  - unfold deleteUser. destruct (Js.falsy_number id); [done|].
    destruct (delete_apikey _ _ _) as [d1|m]; [|apply rollback_txn].
    destruct (delete_user _ _ _) as [d2|m2]; [done | apply rollback_txn].
Qed.

(** *** listUsers *)

Lemma fmap_list_row_ids (now : Z) (keys : gmap Z apikey_row) (l : list (Z * user_row)) :
  l_id <$> (list_row now keys <$> l) = l.*1.
Proof. rewrite <- list_fmap_compose. reflexivity. Qed.

Lemma fmap_left_join_ids (keys : gmap Z apikey_row) (l : list (Z * user_row)) :
  j_id <$> (left_join keys <$> l) = l.*1.
Proof. rewrite <- list_fmap_compose. reflexivity. Qed.

Lemma online_now_window (now : Z) (keys : gmap Z apikey_row) (r : Z * user_row) :
  (online_now (list_row now keys r) = 1 ∨ online_now (list_row now keys r) = 0) ∧
  (online_now (list_row now keys r) = 1 ↔
   ∃ seen, last_seen r.2 = Some seen ∧ now - seen ≤ 30 * 86400).
Proof.
  unfold list_row, ONLINE_WINDOW_SECONDS. simpl.
  destruct (last_seen r.2) as [seen|].
  - destruct (Z.leb_spec (now - seen) (30 * 24 * 3600)) as [Hle|Hgt].
    + split; [by left|]. split; [|done]. intros _. exists seen. split; [done|lia].
    + split; [by right|]. split; [done|]. intros (s & [= <-] & Hs). lia.
  - split; [by right|]. split; [done|]. by intros (s & [=] & _).
Qed.

(** C5: without a fault [listUsers] replies the rows in ascending order of
    the user id, one row for each user; a row carries the fields of its user
    and the key fields of the key row of the same id, null when there is
    none (left join); [online_now] is 1 or 0, and it is 1 exactly when
    [last_seen] is not null and no more than 30 days before the instant of
    the query. *)
Theorem listUsers_ascending_left_join (now : Z) (d : db) :
  ∃ rows, listUsers None now d = (Reply 200 (BUsers rows), d) ∧
    StronglySorted Z.lt (l_id <$> rows) ∧
    (∀ i u, users (tbl d) !! i = Some u →
            ∃ r, r ∈ rows ∧ listed_from (apikeys (tbl d)) i u r) ∧
    (∀ r, r ∈ rows →
          ∃ u, users (tbl d) !! l_id r = Some u ∧
               listed_from (apikeys (tbl d)) (l_id r) u r) ∧
    (∀ r, r ∈ rows →
          (online_now r = 1 ∨ online_now r = 0) ∧
          (online_now r = 1 ↔
           ∃ seen, l_last_seen r = Some seen ∧ now - seen ≤ 30 * 86400)).
Proof.
  exists (list_row now (apikeys (tbl d)) <$> scan (users (tbl d))).
  split; [reflexivity|].
  split; [rewrite fmap_list_row_ids; apply scan_ids_ascending|].
  split; [|split].
  - intros i u Hu. exists (list_row now (apikeys (tbl d)) (i, u)).
    split; [|by repeat split].
    apply list_elem_of_fmap. exists (i, u). split; [done|]. by apply elem_of_scan.
  - intros r Hr. apply list_elem_of_fmap in Hr as ([i u] & -> & Hin).
    apply elem_of_scan in Hin. exists u. by repeat split.
  - intros r Hr. apply list_elem_of_fmap in Hr as ([i u] & -> & Hin).
    apply online_now_window.
Qed.

Lemma listUsers_ascending_left_join_witness :
  ∃ rows, listUsers None 300 ann_saved = (Reply 200 (BUsers rows), ann_saved) ∧
    StronglySorted Z.lt (l_id <$> rows) ∧
    (∀ i u, users (tbl ann_saved) !! i = Some u →
            ∃ r, r ∈ rows ∧ listed_from (apikeys (tbl ann_saved)) i u r) ∧
    (∀ r, r ∈ rows →
          ∃ u, users (tbl ann_saved) !! l_id r = Some u ∧
               listed_from (apikeys (tbl ann_saved)) (l_id r) u r) ∧
    (∀ r, r ∈ rows →
          (online_now r = 1 ∨ online_now r = 0) ∧
          (online_now r = 1 ↔
           ∃ seen, l_last_seen r = Some seen ∧ 300 - seen ≤ 30 * 86400)).
Proof. exact (listUsers_ascending_left_join 300 ann_saved). Defined.

(** *** exportCsv *)

Lemma append_assoc (s1 s2 s3 : string) : (s1 +:+ s2) +:+ s3 = s1 +:+ (s2 +:+ s3).
Proof.
  induction s1 as [|c s1 IH]; [done|].
  change (String c ((s1 +:+ s2) +:+ s3) = String c (s1 +:+ (s2 +:+ s3))).
  by rewrite IH.
Qed.

Lemma unquote_body_doubled (s : string) :
  unquote_body (Js.replace_dquotes s +:+ String Js.dquote EmptyString) = Some s.
Proof.
  induction s as [|c s IH]; [done|]. cbn [Js.replace_dquotes].
  destruct (Ascii.eqb c Js.dquote) eqn:E.
  - apply Ascii.eqb_eq in E as ->.
    change (unquote_body
              (String Js.dquote (String Js.dquote
                 (Js.replace_dquotes s +:+ String Js.dquote EmptyString))) =
            Some (String Js.dquote s)).
    cbn [unquote_body]. rewrite Ascii.eqb_refl, IH. done.
  - change (unquote_body
              (String c (Js.replace_dquotes s +:+ String Js.dquote EmptyString)) =
            Some (String c s)).
    cbn [unquote_body]. rewrite E, IH. done.
Qed.

Lemma unquote_esc (s : string) : unquote (esc (Some s)) = Some s.
Proof.
  unfold esc, unquote. rewrite Ascii.eqb_refl. apply unquote_body_doubled.
Qed.

Lemma esc_doubles_embedded_quote :
  esc (Some (String "O" (String Js.dquote "Brien"))) =
  quoted (String "O" (String Js.dquote (String Js.dquote "Brien"))).
Proof. reflexivity. Qed.

Lemma csv_line_fields (r : joined_row) :
  csv_line r = join "," (csv_fields r) +:+ String Js.newline EmptyString.
Proof.
  unfold csv_line, csv_fields. cbn [join]. by rewrite !append_assoc.
Qed.

(** C6 (as amended): without a fault [exportCsv] writes the header line
    and then one line for each user, in ascending order of the id; a line
    is the eight fields of the header joined by commas; the id is written
    as a bare number, every other value that is not null is written between
    double quotes with each double quote of its text doubled (reading the
    field back gives the text), and a null value is written as an empty
    field without quotes. *)
Theorem exportCsv_format (d : db) :
  ∃ rows,
    exportCsv None d =
      (Reply 200
         (BCsv (("id,firstname,lastname,email,user_created_at,api_key,apikey_created_at,last_seen"
                 +:+ String Js.newline EmptyString)
                +:+ write_all (csv_line <$> rows))), d) ∧
    StronglySorted Z.lt (j_id <$> rows) ∧
    (∀ i u, users (tbl d) !! i = Some u →
            ∃ r, r ∈ rows ∧ joined_from (apikeys (tbl d)) i u r) ∧
    (∀ r, r ∈ rows →
          ∃ u, users (tbl d) !! j_id r = Some u ∧
               joined_from (apikeys (tbl d)) (j_id r) u r) ∧
    (∀ r, csv_line r = join "," (csv_fields r) +:+ String Js.newline EmptyString) ∧
    (∀ s, esc (Some s) = quoted (Js.replace_dquotes s) ∧
          unquote (esc (Some s)) = Some s) ∧
    esc None = EmptyString.
Proof.
  exists (left_join (apikeys (tbl d)) <$> scan (users (tbl d))).
  split; [reflexivity|].
  split; [rewrite fmap_left_join_ids; apply scan_ids_ascending|].
  split; [|split; [|split; [|split]]].
  - intros i u Hu. exists (left_join (apikeys (tbl d)) (i, u)).
    split; [|by repeat split].
    apply list_elem_of_fmap. exists (i, u). split; [done|]. by apply elem_of_scan.
  - intros r Hr. apply list_elem_of_fmap in Hr as ([i u] & -> & Hin).
    apply elem_of_scan in Hin. exists u. by repeat split.
  - apply csv_line_fields.
  - intros s. split; [reflexivity | apply unquote_esc].
  - reflexivity.
Qed.

Lemma exportCsv_format_witness :
  ∃ rows,
    exportCsv None one_user_no_key =
      (Reply 200
         (BCsv (("id,firstname,lastname,email,user_created_at,api_key,apikey_created_at,last_seen"
                 +:+ String Js.newline EmptyString)
                +:+ write_all (csv_line <$> rows))), one_user_no_key) ∧
    StronglySorted Z.lt (j_id <$> rows) ∧
    (∀ i u, users (tbl one_user_no_key) !! i = Some u →
            ∃ r, r ∈ rows ∧ joined_from (apikeys (tbl one_user_no_key)) i u r) ∧
    (∀ r, r ∈ rows →
          ∃ u, users (tbl one_user_no_key) !! j_id r = Some u ∧
               joined_from (apikeys (tbl one_user_no_key)) (j_id r) u r) ∧
    (∀ r, csv_line r = join "," (csv_fields r) +:+ String Js.newline EmptyString) ∧
    (∀ s, esc (Some s) = quoted (Js.replace_dquotes s) ∧
          unquote (esc (Some s)) = Some s) ∧
    esc None = EmptyString.
Proof. exact (exportCsv_format one_user_no_key). Defined.

(** C6, the claim as stated fails on a user without a key row who was never
    seen: the three null values end the line as three empty fields, while
    the wording of the claim asks for three pairs of double quotes. *)
Lemma exportCsv_null_field_counterexample :
  (exportCsv None one_user_no_key).1 =
    Reply 200
      (BCsv (csv_header +:+
             "1," +:+ quoted "Ann" +:+ "," +:+ quoted "Lee" +:+ "," +:+
             quoted "ann@example.org" +:+ "," +:+
             quoted "1970-01-01 00:01:40" +:+ ",,," +:+
             String Js.newline EmptyString)) ∧
  (exportCsv None one_user_no_key).1 ≠
    Reply 200
      (BCsv (csv_header +:+
             write_all (csv_line_quoting_null <$>
                          (left_join (apikeys (tbl one_user_no_key)) <$>
                             scan (users (tbl one_user_no_key)))))).
Proof.
  split; [vm_compute; reflexivity|].
  vm_compute. intros H. discriminate H.
Qed.

(** ** Further properties of the handlers *)

Import Presence Server.

(** *** Presence *)

Lemma alter_alter {A : Type} (f g : A → A) (m : gmap Z A) (i : Z) :
  alter g i (alter f i m) = alter (g ∘ f) i m.
Proof.
  apply map_eq. intros j. destruct (decide (i = j)) as [->|Hne].
  - rewrite !lookup_alter_eq. by destruct (m !! j).
  - by rewrite !lookup_alter_ne.
Qed.

Lemma db_eta (d : db) :
  set_tbl d {| users := users (tbl d); apikeys := apikeys (tbl d);
               users_seq := users_seq (tbl d) |} = d.
Proof. by destruct d as [[us ks seq] fk tx]. Qed.

Lemma listed_rows (now : Z) (d : db) :
  listed now d = list_row now (apikeys (tbl d)) <$> scan (users (tbl d)).
Proof. reflexivity. Qed.

Lemma elem_of_listed (now : Z) (d : db) (r : listed_row) :
  r ∈ listed now d ↔
  ∃ i u, users (tbl d) !! i = Some u ∧ r = list_row now (apikeys (tbl d)) (i, u).
Proof.
  rewrite listed_rows, list_elem_of_fmap. split.
  - intros ([i u] & -> & Hin). apply elem_of_scan in Hin. eauto.
  - intros (i & u & Hu & ->). exists (i, u). split; [done|]. by apply elem_of_scan.
Qed.

(** X1: a heartbeat followed by the offline call leaves the store exactly as
    the offline call alone does; for a stored user the row is then offline
    with a null [last_seen]. *)
Theorem offline_after_online (now : Z) (id : Js.number) (d : db) :
  (setOffline None id (setOnline None now id d).2).2 = (setOffline None id d).2 ∧
  ∀ z u, id = Js.Int z → users (tbl d) !! z = Some u →
         users (tbl (setOffline None id (setOnline None now id d).2).2) !! z
         = Some (mark_offline u) ∧
         is_online (mark_offline u) = 0 ∧ last_seen (mark_offline u) = None.
Proof.
  destruct id as [|z|]; simpl; (split; [|intros z' u [=]]); try done.
  - unfold set_tbl. simpl. by rewrite alter_alter.
  - subst z'. intros Hu. split; [|done].
    rewrite alter_alter, lookup_alter_eq, Hu. done.
Qed.

Lemma offline_after_online_witness :
  (setOffline None (Js.Int 1) (setOnline None 200 (Js.Int 1) ann_saved).2).2 =
    (setOffline None (Js.Int 1) ann_saved).2 ∧
  ∀ z u, Js.Int 1 = Js.Int z → users (tbl ann_saved) !! z = Some u →
         users (tbl (setOffline None (Js.Int 1)
                       (setOnline None 200 (Js.Int 1) ann_saved).2).2) !! z
         = Some (mark_offline u) ∧
         is_online (mark_offline u) = 0 ∧ last_seen (mark_offline u) = None.
Proof. exact (offline_after_online 200 (Js.Int 1) ann_saved). Defined.

(** X2: the heartbeat and the offline call on an id that matches no user
    row (a missing id, a fraction, not a number) reply success and leave the
    store unchanged: an unknown id is not an error. *)
Theorem presence_unknown_id (now : Z) (id : Js.number) (d : db) :
  (∀ z, id = Js.Int z → users (tbl d) !! z = None) →
  setOnline None now id d = (Reply 200 BSuccess, d) ∧
  setOffline None id d = (Reply 200 BSuccess, d).
Proof.
  intros Hnone. destruct id as [|z|]; simpl; try done.
  unfold setOnline, setOffline, where_id, update_seen, update_offline, guarded.
  rewrite !alter_id' by eauto. by rewrite db_eta.
Qed.

Lemma presence_unknown_id_witness :
  (∀ z, Js.Int 7 = Js.Int z → users (tbl ann_saved) !! z = None) ∧
  setOnline None 200 (Js.Int 7) ann_saved = (Reply 200 BSuccess, ann_saved) ∧
  setOffline None (Js.Int 7) ann_saved = (Reply 200 BSuccess, ann_saved).
Proof.
  assert (∀ z, Js.Int 7 = Js.Int z → users (tbl ann_saved) !! z = None) as H.
  { intros z [= <-]. vm_compute. reflexivity. }
  split; [exact H|]. exact (presence_unknown_id 200 (Js.Int 7) ann_saved H).
Defined.

(** X3: whatever the id and the fault, the heartbeat and the offline call
    never touch the apikeys table or the id sequence, never add or remove a
    user, leave every other user row as it was, and change nothing but
    [is_online] and [last_seen] in the row of the id. *)
Theorem presence_frame (f : fault) (now : Z) (id : Js.number) (d : db) (d' : db) :
  d' = (setOnline f now id d).2 ∨ d' = (setOffline f id d).2 →
  apikeys (tbl d') = apikeys (tbl d) ∧
  users_seq (tbl d') = users_seq (tbl d) ∧
  dom (users (tbl d')) = dom (users (tbl d)) ∧
  (∀ j, id ≠ Js.Int j → users (tbl d') !! j = users (tbl d) !! j) ∧
  ∀ j u', users (tbl d') !! j = Some u' →
          ∃ u, users (tbl d) !! j = Some u ∧
               firstname u' = firstname u ∧ lastname u' = lastname u ∧
               email u' = email u ∧ created_at u' = created_at u.
Proof.
  assert (∀ j u', users (tbl d) !! j = Some u' →
            ∃ u, users (tbl d) !! j = Some u ∧
                 firstname u' = firstname u ∧ lastname u' = lastname u ∧
                 email u' = email u ∧ created_at u' = created_at u) as Hsame
    by (intros; eauto 10).
  unfold setOnline, setOffline, where_id, update_seen, update_offline, guarded.
  intros [-> | ->]; destruct f as [m|], id as [|z|]; simpl; try done.
  - repeat split; try done.
    + apply dom_alter_L.
    + intros j Hj. apply lookup_alter_ne. congruence.
    + intros j u' Hu'. apply lookup_alter_Some in Hu' as [[-> (u & Hu & ->)]|[_ Hu']];
        [exists u; by repeat split | eauto 10].
  - repeat split; try done.
    + apply dom_alter_L.
    + intros j Hj. apply lookup_alter_ne. congruence.
    + intros j u' Hu'. apply lookup_alter_Some in Hu' as [[-> (u & Hu & ->)]|[_ Hu']];
        [exists u; by repeat split | eauto 10].
Qed.

Lemma presence_frame_witness :
  apikeys (tbl (setOnline None 200 (Js.Int 1) ann_saved).2) = apikeys (tbl ann_saved) ∧
  users_seq (tbl (setOnline None 200 (Js.Int 1) ann_saved).2) = users_seq (tbl ann_saved) ∧
  dom (users (tbl (setOnline None 200 (Js.Int 1) ann_saved).2)) =
    dom (users (tbl ann_saved)) ∧
  (∀ j, Js.Int 1 ≠ Js.Int j →
        users (tbl (setOnline None 200 (Js.Int 1) ann_saved).2) !! j =
        users (tbl ann_saved) !! j) ∧
  ∀ j u', users (tbl (setOnline None 200 (Js.Int 1) ann_saved).2) !! j = Some u' →
          ∃ u, users (tbl ann_saved) !! j = Some u ∧
               firstname u' = firstname u ∧ lastname u' = lastname u ∧
               email u' = email u ∧ created_at u' = created_at u.
Proof.
  apply (presence_frame None 200 (Js.Int 1) ann_saved). by left.
Defined.

(** X4: after a heartbeat at instant [t] the listing shows the user with
    [last_seen] at [t], and online exactly while the query is no more than
    30 days later; after the offline call it shows the user offline with a
    null [last_seen], whenever the query is made. *)
Theorem heartbeat_in_listing (t now z : Z) (u : user_row) (d : db) :
  users (tbl d) !! z = Some u →
  (∃ r, r ∈ listed now (setOnline None t (Js.Int z) d).2 ∧
        l_id r = z ∧ l_email r = email u ∧ l_last_seen r = Some t ∧
        (online_now r = 1 ↔ now - t ≤ 30 * 86400)) ∧
  (∃ r, r ∈ listed now (setOffline None (Js.Int z) d).2 ∧
        l_id r = z ∧ l_email r = email u ∧ l_last_seen r = None ∧
        online_now r = 0).
Proof.
  intros Hu. split.
  - eexists. split.
    + apply elem_of_listed. exists z, (mark_seen t u). split; [|reflexivity].
      simpl. by rewrite lookup_alter_eq, Hu.
    + simpl. repeat split; try done.
      * unfold ONLINE_WINDOW_SECONDS. destruct (Z.leb_spec (now - t) (30 * 24 * 3600)); lia.
      * unfold ONLINE_WINDOW_SECONDS. destruct (Z.leb_spec (now - t) (30 * 24 * 3600)); lia.
  - eexists. split.
    + apply elem_of_listed. exists z, (mark_offline u). split; [|reflexivity].
      simpl. by rewrite lookup_alter_eq, Hu.
    + done.
Qed.

Lemma heartbeat_in_listing_witness :
  (∃ r, r ∈ listed 300 (setOnline None 200 (Js.Int 1) ann_saved).2 ∧
        l_id r = 1 ∧ l_email r = "ann@example.org" ∧ l_last_seen r = Some 200 ∧
        (online_now r = 1 ↔ 300 - 200 ≤ 30 * 86400)) ∧
  (∃ r, r ∈ listed 300 (setOffline None (Js.Int 1) ann_saved).2 ∧
        l_id r = 1 ∧ l_email r = "ann@example.org" ∧ l_last_seen r = None ∧
        online_now r = 0).
Proof.
  apply (heartbeat_in_listing 200 300 1
           {| firstname := "Ann"; lastname := "Lee"; email := "ann@example.org";
              is_online := 0; last_seen := None; created_at := 100 |} ann_saved).
  vm_compute. reflexivity.
Defined.

(** *** Saving *)

Lemma max_rowid_nonneg {A : Type} (m : gmap Z A) : 0 ≤ max_rowid m.
Proof. unfold max_rowid. induction (map_to_list m) as [|r l IH]; simpl; lia. Qed.

Lemma scan_insert_last {A : Type} (m : gmap Z A) (k : Z) (v : A) :
  (∀ i x, m !! i = Some x → i < k) →
  scan (<[k := v]> m) = scan m ++ [(k, v)].
Proof.
  intros Hlt.
  assert (m !! k = None) as Hk.
  { destruct (m !! k) eqn:E; [|done]. apply Hlt in E. lia. }
  apply (StronglySorted_unique_strong rowid_le).
  - intros [i x] [j y] Hi Hj Hij Hji. unfold rowid_le in *. simpl in *.
    assert (i = j) as -> by lia. apply elem_of_scan in Hi.
    apply elem_of_app in Hj as [Hj | Hj].
    + apply elem_of_scan in Hj. rewrite lookup_insert_ne in Hi; [congruence|].
      intros ->. congruence.
    + apply list_elem_of_singleton in Hj as [= -> ->].
      rewrite lookup_insert_eq in Hi. congruence.
  - apply scan_sorted.
  - apply StronglySorted_app. split; [|split].
    + intros [i x] [j y] Hi Hj. apply elem_of_scan in Hi.
      apply list_elem_of_singleton in Hj as [= -> ->].
      unfold rowid_le. simpl. apply Hlt in Hi. lia.
    + apply scan_sorted.
    + repeat constructor.
  - unfold scan. rewrite !merge_sort_Permutation.
    rewrite map_to_list_insert by done.
    by rewrite <- Permutation_cons_append.
Qed.

(** What a successful [saveUser] did: the id it handed out, the two rows it
    inserted, the row it replied. *)
Lemma saveUser_success_inv fu fk fd fg tu tk b d row d1 :
  saveUser fu fk fd fg tu tk b d = (Reply 200 (BSaved row), d1) →
  let uid := Z.max (max_rowid (users (tbl d))) (users_seq (tbl d)) + 1 in
  let urow := {| firstname := text (r_firstname b); lastname := text (r_lastname b);
                 email := text (r_email b); is_online := 0; last_seen := None;
                 created_at := tu |} in
  let krow := {| api_key := text (r_apiKey b); apikey_created_at := tk |} in
  complete b ∧
  email_taken (text (r_email b)) (tbl d) = false ∧
  key_taken (text (r_apiKey b)) (tbl d) = false ∧
  users (tbl d) !! uid = None ∧ apikeys (tbl d) !! uid = None ∧
  d1 = set_tbl d {| users := <[uid := urow]> (users (tbl d));
                    apikeys := <[uid := krow]> (apikeys (tbl d));
                    users_seq := uid |} ∧
  row = left_join (<[uid := krow]> (apikeys (tbl d))) (uid, urow).
Proof.
  rewrite saveUser_unfold.
  destruct (Js.falsy (r_firstname b)) eqn:E1; [done|].
  destruct (Js.falsy (r_lastname b)) eqn:E2; [done|].
  destruct (Js.falsy (r_email b)) eqn:E3; [done|].
  destruct (Js.falsy (r_apiKey b)) eqn:E4; [done|]. cbn [orb].
  destruct (insert_user _ _ _ _ _ _) as [[uid d0]|m] eqn:Hu.
  2:{ by destruct (_ && _). }
  destruct (insert_apikey _ _ _ _ _) as [d2|m2] eqn:Hk; [|done].
  pose proof Hu as Hu'. apply insert_user_ok in Hu' as (-> & Hfree & Hfresh & ->).
  assert (uid = Z.max (max_rowid (users (tbl d))) (users_seq (tbl d)) + 1) as Huid.
  { unfold insert_user, guarded in Hu. rewrite Hfree in Hu. by injection Hu as <-. }
  apply insert_apikey_ok in Hk as (-> & Hnone & Hkfree & ->).
  unfold select_saved, guarded. destruct fg as [m|]; [done|]. simpl in *.
  rewrite lookup_insert_eq. simpl. intros [= <- <-]. subst uid.
  by repeat split.
Qed.

(** X5: after a successful save the listing is the listing of before with
    one row added at its end: the new user with the fields of the request
    and the key, never seen and offline. *)
Theorem saved_user_listed_last
  (fu fk fd fg : fault) (tu tk : Z) (b : save_request) (d : db)
  (row : joined_row) (d1 : db) (now : Z) :
  saveUser fu fk fd fg tu tk b d = (Reply 200 (BSaved row), d1) →
  listed now d1 = listed now d ++ [fresh_listing row] ∧
  j_firstname row = text (r_firstname b) ∧ j_lastname row = text (r_lastname b) ∧
  j_email row = text (r_email b) ∧ j_api_key row = Some (text (r_apiKey b)) ∧
  ∀ r, r ∈ listed now d → l_id r < j_id row.
Proof.
  intros Hsave. apply saveUser_success_inv in Hsave
    as (_ & _ & _ & Hfresh & Hkfresh & -> & ->).
  set (uid := Z.max (max_rowid (users (tbl d))) (users_seq (tbl d)) + 1) in *.
  assert (∀ i x, users (tbl d) !! i = Some x → i < uid) as Hlt.
  { intros i x Hx. apply max_rowid_ge in Hx. subst uid. lia. }
  split; [|split; [|split; [|split; [|split]]]]; simpl.
  - rewrite !listed_rows. simpl. rewrite scan_insert_last by done.
    rewrite fmap_app.
    assert (list_row now
              (<[uid := {| api_key := text (r_apiKey b); apikey_created_at := tk |}]>
                 (apikeys (tbl d))) <$> scan (users (tbl d)) =
            list_row now (apikeys (tbl d)) <$> scan (users (tbl d))) as ->.
    { apply list_fmap_ext. intros n [i u] Hin.
      apply list_elem_of_lookup_2, elem_of_scan, Hlt in Hin.
      unfold list_row. simpl. rewrite lookup_insert_ne by lia. done. }
    f_equal; simpl; unfold list_row, fresh_listing; simpl;
      by rewrite lookup_insert_eq.
  - done.
  - done.
  - done.
  - by rewrite lookup_insert_eq.
  - intros r Hr. apply elem_of_listed in Hr as (i & u & Hu & ->). simpl. eauto.
Qed.

Lemma saved_user_listed_last_witness :
  listed 300 ann_saved = listed 300 open_db ++
    [fresh_listing {| j_id := 1; j_firstname := "Ann"; j_lastname := "Lee";
                      j_email := "ann@example.org"; j_user_created_at := 100;
                      j_api_key := Some sample_key; j_apikey_created_at := Some 101;
                      j_last_seen := None |}] ∧
  "Ann" = text (r_firstname ann_request) ∧ "Lee" = text (r_lastname ann_request) ∧
  "ann@example.org" = text (r_email ann_request) ∧
  Some sample_key = Some (text (r_apiKey ann_request)) ∧
  ∀ r, r ∈ listed 300 open_db → l_id r < 1.
Proof.
  apply (saved_user_listed_last None None None None 100 101 ann_request open_db
           {| j_id := 1; j_firstname := "Ann"; j_lastname := "Lee";
              j_email := "ann@example.org"; j_user_created_at := 100;
              j_api_key := Some sample_key; j_apikey_created_at := Some 101;
              j_last_seen := None |} ann_saved 300).
  vm_compute. reflexivity.
Defined.

(** *** The outcomes of the writing handlers *)

Lemma saveUser_inserts fd fg tu tk b d :
  complete b →
  email_taken (text (r_email b)) (tbl d) = false →
  key_taken (text (r_apiKey b)) (tbl d) = false →
  apikeys (tbl d) !! (Z.max (max_rowid (users (tbl d))) (users_seq (tbl d)) + 1) = None →
  let uid := Z.max (max_rowid (users (tbl d))) (users_seq (tbl d)) + 1 in
  let urow := {| firstname := text (r_firstname b); lastname := text (r_lastname b);
                 email := text (r_email b); is_online := 0; last_seen := None;
                 created_at := tu |} in
  let krow := {| api_key := text (r_apiKey b); apikey_created_at := tk |} in
  saveUser None None fd fg tu tk b d =
    (match fg with
     | Some m => Reply 500 (BError "DB fetch after save failed" (Some m))
     | None =>
         Reply 200 (BSaved (left_join (<[uid := krow]> (apikeys (tbl d))) (uid, urow)))
     end,
     set_tbl d {| users := <[uid := urow]> (users (tbl d));
                  apikeys := <[uid := krow]> (apikeys (tbl d));
                  users_seq := uid |}).
Proof.
  intros Hb He Hk Hnone. rewrite saveUser_unfold.
  rewrite (complete_falsy b Hb). unfold insert_user, guarded. rewrite He.
  unfold insert_apikey, guarded. cbn [tbl set_tbl apikeys users foreign_keys].
  rewrite Hnone. unfold key_taken in *. cbn [apikeys]. rewrite Hk.
  rewrite lookup_insert_eq.
  destruct (foreign_keys d), fg; unfold select_saved, guarded;
    cbn [tbl set_tbl users apikeys]; rewrite ?lookup_insert_eq; reflexivity.
Qed.

Lemma saveUser_succeeds fd tu tk b d :
  complete b →
  email_taken (text (r_email b)) (tbl d) = false →
  key_taken (text (r_apiKey b)) (tbl d) = false →
  apikeys (tbl d) !! (Z.max (max_rowid (users (tbl d))) (users_seq (tbl d)) + 1) = None →
  let uid := Z.max (max_rowid (users (tbl d))) (users_seq (tbl d)) + 1 in
  let urow := {| firstname := text (r_firstname b); lastname := text (r_lastname b);
                 email := text (r_email b); is_online := 0; last_seen := None;
                 created_at := tu |} in
  let krow := {| api_key := text (r_apiKey b); apikey_created_at := tk |} in
  saveUser None None fd None tu tk b d =
    (Reply 200 (BSaved (left_join (<[uid := krow]> (apikeys (tbl d))) (uid, urow))),
     set_tbl d {| users := <[uid := urow]> (users (tbl d));
                  apikeys := <[uid := krow]> (apikeys (tbl d));
                  users_seq := uid |}).
Proof. intros. by apply (saveUser_inserts fd None). Qed.

(** The four stores a [saveUser] call can end in: the one it started from;
    that one with an id used up, when the key insert failed and the user row
    was taken back; that one with the user row alone, when the key insert
    failed and the [DELETE] failed too; that one with the two new rows. *)
Lemma saveUser_store fu fk fd fg tu tk b d :
  let uid := Z.max (max_rowid (users (tbl d))) (users_seq (tbl d)) + 1 in
  let urow := {| firstname := text (r_firstname b); lastname := text (r_lastname b);
                 email := text (r_email b); is_online := 0; last_seen := None;
                 created_at := tu |} in
  (saveUser fu fk fd fg tu tk b d).2 = d ∨
  (saveUser fu fk fd fg tu tk b d).2 =
    set_tbl d {| users := users (tbl d);
                 apikeys := if foreign_keys d then delete uid (apikeys (tbl d))
                            else apikeys (tbl d);
                 users_seq := uid |} ∨
  (email_taken (text (r_email b)) (tbl d) = false ∧
   (saveUser fu fk fd fg tu tk b d).2 =
     set_tbl d {| users := <[uid := urow]> (users (tbl d));
                  apikeys := apikeys (tbl d);
                  users_seq := uid |}) ∨
  (email_taken (text (r_email b)) (tbl d) = false ∧
   key_taken (text (r_apiKey b)) (tbl d) = false ∧
   apikeys (tbl d) !! uid = None ∧
   (saveUser fu fk fd fg tu tk b d).2 =
     set_tbl d {| users := <[uid := urow]> (users (tbl d));
                  apikeys := <[uid := {| api_key := text (r_apiKey b);
                                         apikey_created_at := tk |}]>
                               (apikeys (tbl d));
                  users_seq := uid |}).
Proof.
  intros uid urow. rewrite saveUser_unfold.
  destruct (_ || _); [by left|].
  destruct (insert_user _ _ _ _ _ _) as [[uid' d0]|m] eqn:Hu.
  2:{ left. by destruct (_ && _). }
  pose proof Hu as Hu'. apply insert_user_ok in Hu' as (-> & Hfree & Hfresh & ->).
  assert (uid' = uid) as ->.
  { unfold insert_user, guarded in Hu. rewrite Hfree in Hu. by injection Hu as <-. }
  destruct (insert_apikey _ _ _ _ _) as [d2|m2] eqn:Hk.
  - right. right. right. apply insert_apikey_ok in Hk as (-> & Hnone & Hkfree & ->).
    repeat split; try done.
    by destruct (select_saved _ _ _) as [[row|]|m].
  - destruct fd as [m|].
    + right. right. left. by split.
    + right. left. unfold delete_user, guarded, delete_user_rows.
      cbn [tbl set_tbl users apikeys].
      rewrite lookup_insert_eq. cbn [snd]. unfold set_tbl. cbn.
      rewrite delete_insert_eq, delete_id by done. done.
Qed.

Lemma deleteUser_commits id d :
  txn d = None → Js.falsy_number id = false →
  deleteUser None None id d =
    (Reply 200 BSuccess,
     {| tbl := {| users := without id (users (tbl d));
                  apikeys := without id (apikeys (tbl d));
                  users_seq := users_seq (tbl d) |};
        foreign_keys := true; txn := None |}).
Proof.
  intros Htx Hid. destruct d as [[us ks seq] fkeys tx]. simpl in Htx. subst tx.
  unfold deleteUser. rewrite Hid.
  destruct id as [|z|]; try done.
  unfold delete_apikey, delete_user, delete_user_rows, guarded, commit,
    begin_transaction, pragma_foreign_keys_on, set_tbl. simpl.
  destruct (us !! z) as [u|] eqn:Hu; simpl.
  - by rewrite delete_delete_eq.
  - rewrite (delete_id us z) by done. done.
Qed.

Lemma deleteUser_store fk fu id d :
  txn d = None →
  (deleteUser fk fu id d).2 = d ∨
  (deleteUser fk fu id d).2 = {| tbl := tbl d; foreign_keys := true; txn := None |} ∨
  (Js.falsy_number id = false ∧ fk = None ∧ fu = None ∧
   (deleteUser fk fu id d).2 =
     {| tbl := {| users := without id (users (tbl d));
                  apikeys := without id (apikeys (tbl d));
                  users_seq := users_seq (tbl d) |};
        foreign_keys := true; txn := None |}).
Proof.
  intros Htx. destruct d as [[us ks seq] fkeys tx]. simpl in Htx. subst tx.
  unfold deleteUser. destruct (Js.falsy_number id) eqn:Hid; [by left|].
  destruct fk as [m|]; [by right; left|].
  destruct fu as [m|]; [right; left; by destruct id|].
  right. right. repeat split.
  destruct id as [|z|]; try done.
  unfold delete_apikey, delete_user, delete_user_rows, guarded, commit,
    begin_transaction, pragma_foreign_keys_on, set_tbl. simpl.
  destruct (us !! z) as [u|] eqn:Hu; simpl.
  - by rewrite delete_delete_eq.
  - rewrite (delete_id us z) by done. done.
Qed.

Lemma validateKey_store fl fu now key d :
  (validateKey fl fu now key d).2 = d ∨
  ∃ i, (validateKey fl fu now key d).2 =
         set_tbl d {| users := alter (mark_seen now) i (users (tbl d));
                      apikeys := apikeys (tbl d);
                      users_seq := users_seq (tbl d) |}.
Proof.
  unfold validateKey.
  destruct (Js.falsy key); [by left|]. destruct (negb _); [by left|].
  destruct (select_apikey _ _ _) as [[row|]|m]; [|by left|by left].
  destruct fu as [m|]; [by left|]. right. by exists row.1.
Qed.

Lemma presence_store f now id d :
  ((setOnline f now id d).2 = d ∨
   ∃ i, (setOnline f now id d).2 =
          set_tbl d {| users := alter (mark_seen now) i (users (tbl d));
                       apikeys := apikeys (tbl d);
                       users_seq := users_seq (tbl d) |}) ∧
  ((setOffline f id d).2 = d ∨
   ∃ i, (setOffline f id d).2 =
          set_tbl d {| users := alter mark_offline i (users (tbl d));
                       apikeys := apikeys (tbl d);
                       users_seq := users_seq (tbl d) |}).
Proof.
  unfold setOnline, setOffline, where_id, update_seen, update_offline, guarded.
  destruct f as [m|], id as [|z|]; simpl; split; eauto.
Qed.

(** *** The consistency of the store *)

Lemma consistent_open_db : consistent open_db.
Proof. split; simpl; try done; intros *; by rewrite lookup_empty. Qed.





Lemma consistent_saveUser fu fk fd fg tu tk b d :
  consistent d → consistent (saveUser fu fk fd fg tu tk b d).2.
Proof.
  intros Hc. pose proof Hc as [H1 H2 H3 H4 H5].
  pose proof (max_rowid_nonneg (users (tbl d))) as Hpos.
  destruct (saveUser_store fu fk fd fg tu tk b d)
    as [-> | [-> | [(He & ->) | (He & Hk & Hn & ->)]]]; [done | | |].
  - split; simpl; try done.
    + intros i a Ha. destruct (foreign_keys d); [|eauto].
      apply lookup_delete_Some in Ha as [_ Ha]. eauto.
    + intros i j a c Ha Hc'. destruct (foreign_keys d); [|eauto].
      apply lookup_delete_Some in Ha as [_ Ha].
      apply lookup_delete_Some in Hc' as [_ Hc']. eauto.
    + intros i u Hu. apply H5 in Hu. lia.
  - split; simpl; try done.
    + intros i a Ha. apply lookup_insert_is_Some'. eauto.
    + intros i j u v Hu Hv E.
      apply lookup_insert_Some in Hu as [[<- <-]|[Hi Hu]];
      apply lookup_insert_Some in Hv as [[<- <-]|[Hj Hv]]; simpl in E; eauto.
      * exfalso. assert (email_taken (text (r_email b)) (tbl d) = true); [|congruence].
        apply email_taken_iff. eauto.
      * exfalso. assert (email_taken (text (r_email b)) (tbl d) = true); [|congruence].
        apply email_taken_iff. eauto.
    + intros i u Hu. apply lookup_insert_Some in Hu as [[<- _]|[_ Hu]]; [lia|].
      apply H5 in Hu. lia.
  - split; simpl; try done.
    + intros i a Ha. apply lookup_insert_is_Some'.
      apply lookup_insert_Some in Ha as [[-> _]|[_ Ha]]; eauto.
    + intros i j u v Hu Hv E.
      apply lookup_insert_Some in Hu as [[<- <-]|[Hi Hu]];
      apply lookup_insert_Some in Hv as [[<- <-]|[Hj Hv]]; simpl in E; eauto.
      * exfalso. assert (email_taken (text (r_email b)) (tbl d) = true); [|congruence].
        apply email_taken_iff. eauto.
      * exfalso. assert (email_taken (text (r_email b)) (tbl d) = true); [|congruence].
        apply email_taken_iff. eauto.
    + intros i j a c Ha Hc' E.
      apply lookup_insert_Some in Ha as [[<- <-]|[Hi Ha]];
      apply lookup_insert_Some in Hc' as [[<- <-]|[Hj Hc']]; simpl in E; eauto.
      * exfalso. assert (key_taken (text (r_apiKey b)) (tbl d) = true); [|congruence].
        apply key_taken_iff. eauto.
      * exfalso. assert (key_taken (text (r_apiKey b)) (tbl d) = true); [|congruence].
        apply key_taken_iff. eauto.
    + intros i u Hu. apply lookup_insert_Some in Hu as [[<- _]|[_ Hu]]; [lia|].
      apply H5 in Hu. lia.
Qed.

Lemma mark_seen_email now u : email (mark_seen now u) = email u.
Proof. done. Qed.

Lemma mark_offline_email u : email (mark_offline u) = email u.
Proof. done. Qed.



(** *** The id sequence *)

Lemma handle_autocommit (q : request) (d : db) :
  txn d = None → txn (handle q d).2 = None.
Proof.
  intros H. destruct q as [fu fk fd fg tu tk b|fl fu now key|f now id|f id|f1 f2 now s r];
    simpl.
  - by apply saveUser_autocommit.
  - by apply validateKey_autocommit.
  - by destruct (presence_store f now id d) as [[-> | [i ->]] _].
  - by destruct (presence_store f 0 id d) as [_ [-> | [i ->]]].
  - by apply admin_route_autocommit.
Qed.

Lemma handle_sequence (q : request) (d : db) :
  txn d = None → users_seq (tbl d) ≤ users_seq (tbl (handle q d).2).
Proof.
  intros H. destruct q as [fu fk fd fg tu tk b|fl fu now key|f now id|f id|f1 f2 now s r];
    cbn [handle].
  - destruct (saveUser_store fu fk fd fg tu tk b d)
      as [-> | [-> | [(_ & ->) | (_ & _ & _ & ->)]]]; simpl; lia.
  - destruct (validateKey_store fl fu now key d) as [-> | [i ->]]; simpl; lia.
  - destruct (presence_store f now id d) as [[-> | [i ->]] _]; simpl; lia.
  - destruct (presence_store f 0 id d) as [_ [-> | [i ->]]]; simpl; lia.
  - destruct r as [|id| |id]; unfold admin_route, requireAdmin;
      destruct (is_admin s); simpl; try lia.
    + unfold listUsers. destruct f1; simpl; lia.
    + unfold revokeKey, delete_apikey, guarded.
      destruct f1 as [m|], id as [|z|]; simpl; lia.
    + unfold exportCsv. destruct f1; simpl; lia.
    + destruct (deleteUser_store f1 f2 id d H) as [-> | [-> | (_ & _ & _ & ->)]];
        simpl; lia.
Qed.

Lemma run_sequence (qs : list request) (d : db) :
  txn d = None →
  txn (run qs d) = None ∧ users_seq (tbl d) ≤ users_seq (tbl (run qs d)).
Proof.
  revert d. induction qs as [|q qs IH]; intros d H; simpl; [split; [done|lia]|].
  destruct (IH (handle q d).2 (handle_autocommit q d H)) as [Htx Hle].
  split; [done|]. pose proof (handle_sequence q d H). lia.
Qed.

(** X7: an id is never handed out twice.  However many requests are served
    after a user was saved (deletions of that user included), a later
    successful save gets a greater id. *)
Theorem ids_never_reused
  (fu fk fd fg : fault) (tu tk : Z) (b : save_request) (d d1 : db) (row : joined_row)
  (qs : list request)
  (fu' fk' fd' fg' : fault) (tu' tk' : Z) (b' : save_request) (d2 : db) (row' : joined_row) :
  txn d = None →
  saveUser fu fk fd fg tu tk b d = (Reply 200 (BSaved row), d1) →
  saveUser fu' fk' fd' fg' tu' tk' b' (run qs d1) = (Reply 200 (BSaved row'), d2) →
  j_id row < j_id row'.
Proof.
  intros Htx H1 H2.
  apply saveUser_success_inv in H1 as (_ & _ & _ & _ & _ & -> & ->).
  apply saveUser_success_inv in H2 as (_ & _ & _ & _ & _ & _ & ->).
  simpl. match goal with |- _ < Z.max _ (users_seq (tbl (run qs ?d0))) + 1 =>
    destruct (run_sequence qs d0 Htx) as [_ Hle] end.
  simpl in Hle. lia.
Qed.

Lemma ids_never_reused_witness :
  txn open_db = None ∧
  1 < j_id (left_join
              (<[2 := {| api_key := sample_key; apikey_created_at := 401 |}]> ∅)
              (2, {| firstname := "Ann"; lastname := "Lee"; email := "ann@example.org";
                     is_online := 0; last_seen := None; created_at := 400 |})).
Proof.
  split; [reflexivity|].
  apply (ids_never_reused None None None None 100 101 ann_request open_db ann_saved
           {| j_id := 1; j_firstname := "Ann"; j_lastname := "Lee";
              j_email := "ann@example.org"; j_user_created_at := 100;
              j_api_key := Some sample_key; j_apikey_created_at := Some 101;
              j_last_seen := None |}
           [AdminApi None None 300
              (Some {| adminId := Some 1; adminEmail := None |})
              (PostDelete (Js.Int 1))]
           None None None None 400 401 ann_request
           (saveUser None None None None 400 401 ann_request
              (run [AdminApi None None 300
                      (Some {| adminId := Some 1; adminEmail := None |})
                      (PostDelete (Js.Int 1))] ann_saved)).2).
  - reflexivity.
  - vm_compute. reflexivity.
  - vm_compute. reflexivity.
Defined.

(** X8: when the key string of a complete request with a new e-mail
    address is already stored, [saveUser] replies 500 [DB insert apikey
    failed] (not 409).  In a consistent store the row of the refused user,
    under a new id, is stored when the reply is sent; once the queued
    [DELETE] has run the two tables are those of before and only the id
    sequence has moved on, so the id tried is not handed out again; when the
    [DELETE] fails the refused user stays stored, without a key. *)
Theorem saveUser_key_collision
  (fk fd fg : fault) (tu tk : Z) (b : save_request) (d : db) (j : Z) (a : apikey_row) :
  consistent d → complete b →
  email_taken (text (r_email b)) (tbl d) = false →
  apikeys (tbl d) !! j = Some a → r_apiKey b = Some (api_key a) →
  ∃ m uid,
    users_seq (tbl d) < uid ∧ users (tbl d) !! uid = None ∧
    reply (saveUser_route None fk fd fg tu tk b d) =
      Reply 500 (BError "DB insert apikey failed" (Some m)) ∧
    at_reply (saveUser_route None fk fd fg tu tk b d) =
      set_tbl d {| users := <[uid := {| firstname := text (r_firstname b);
                                        lastname := text (r_lastname b);
                                        email := text (r_email b); is_online := 0;
                                        last_seen := None; created_at := tu |}]>
                              (users (tbl d));
                   apikeys := apikeys (tbl d);
                   users_seq := uid |} ∧
    settled (saveUser_route None fk fd fg tu tk b d) =
      match fd with
      | None => set_tbl d {| users := users (tbl d); apikeys := apikeys (tbl d);
                             users_seq := uid |}
      | Some _ => at_reply (saveUser_route None fk fd fg tu tk b d)
      end.
Proof.
  intros Hc Hb He Ha Hk. pose proof Hc as [H1 H2 H3 H4 H5].
  set (uid := Z.max (max_rowid (users (tbl d))) (users_seq (tbl d)) + 1).
  assert (users (tbl d) !! uid = None) as Hfresh.
  { destruct (users (tbl d) !! uid) eqn:E; [|done]. apply max_rowid_ge in E. lia. }
  assert (apikeys (tbl d) !! uid = None) as Hkfresh.
  { destruct (apikeys (tbl d) !! uid) eqn:E; [|done].
    apply H2 in E as [u Hu]. congruence. }
  unfold saveUser_route. rewrite (complete_falsy b Hb).
  unfold insert_user, guarded. rewrite He. fold uid.
  match goal with |- context [insert_apikey fk tk uid ?k ?d0] =>
    destruct (insert_apikey_collision fk tk uid k d0) as [m Hm] end.
  { apply key_taken_iff. exists j, a. split; [done|]. by rewrite Hk. }
  rewrite Hm. cbn [reply at_reply settled]. exists m, uid.
  split; [lia|]. split; [done|]. split; [done|]. split; [done|].
  destruct fd as [mf|]; [done|].
  unfold delete_user, guarded, delete_user_rows.
  cbn [tbl set_tbl users apikeys foreign_keys].
  rewrite lookup_insert_eq. unfold set_tbl. cbn.
  rewrite delete_insert_eq, (delete_id (users (tbl d))) by done.
  destruct (foreign_keys d); [|done]. by rewrite delete_id.
Qed.

Lemma saveUser_key_collision_witness :
  ∃ m uid,
    users_seq (tbl ann_saved) < uid ∧ users (tbl ann_saved) !! uid = None ∧
    reply (saveUser_route None None (Some "SQLITE_BUSY: database is locked") None
             200 201 bob_request ann_saved) =
      Reply 500 (BError "DB insert apikey failed" (Some m)) ∧
    at_reply (saveUser_route None None (Some "SQLITE_BUSY: database is locked") None
                200 201 bob_request ann_saved) =
      set_tbl ann_saved
        {| users := <[uid := {| firstname := text (r_firstname bob_request);
                                lastname := text (r_lastname bob_request);
                                email := text (r_email bob_request); is_online := 0;
                                last_seen := None; created_at := 200 |}]>
                      (users (tbl ann_saved));
           apikeys := apikeys (tbl ann_saved);
           users_seq := uid |} ∧
    settled (saveUser_route None None (Some "SQLITE_BUSY: database is locked") None
               200 201 bob_request ann_saved) =
      at_reply (saveUser_route None None (Some "SQLITE_BUSY: database is locked") None
                  200 201 bob_request ann_saved).
Proof.
  apply (saveUser_key_collision None (Some "SQLITE_BUSY: database is locked") None
           200 201 bob_request ann_saved 1
           {| api_key := sample_key; apikey_created_at := 101 |}).
  - exact (consistent_saveUser None None None None 100 101 ann_request open_db
             consistent_open_db).
  - repeat split.
  - vm_compute. reflexivity.
  - vm_compute. reflexivity.
  - reflexivity.
Defined.

(** X9: when the fetch that follows the two inserts fails, [saveUser]
    replies 500 [DB fetch after save failed] although the user and the key
    are stored, nothing being taken back: in a consistent store, for a
    complete request with a new e-mail address and a new key of the right
    format, the key validates afterwards, and the same request sent again
    is refused with 409 [Email already exists]. *)
Theorem saveUser_fetch_failure_keeps_rows
  (fd fd' : fault) (tu tk tu' tk' now : Z) (b : save_request) (d : db) (m : string) :
  consistent d → complete b → key_format (text (r_apiKey b)) →
  email_taken (text (r_email b)) (tbl d) = false →
  key_taken (text (r_apiKey b)) (tbl d) = false →
  ∃ d1 r d2,
    saveUser None None fd (Some m) tu tk b d =
      (Reply 500 (BError "DB fetch after save failed" (Some m)), d1) ∧
    validateKey None None now (r_apiKey b) d1 = (r, d2) ∧
    valid_reply (text (r_apiKey b)) r ∧
    saveUser None None fd' None tu' tk' b d1 =
      (Reply 409 (BError "Email already exists" None), d1).
Proof.
  intros Hc Hb Hfmt He Hk.
  assert (apikeys (tbl d) !!
            (Z.max (max_rowid (users (tbl d))) (users_seq (tbl d)) + 1) = None)
    as Hnone.
  { destruct (apikeys (tbl d) !! _) eqn:E; [|done].
    apply (key_has_user d Hc) in E as [u Hu].
    apply (ids_in_sequence d Hc) in Hu. lia. }
  pose proof (saveUser_succeeds fd tu tk b d Hb He Hk Hnone) as Hok. simpl in Hok.
  set (uid := Z.max (max_rowid (users (tbl d))) (users_seq (tbl d)) + 1) in *.
  pose proof (saveUser_saved _ _ _ _ _ _ _ _ _ _ Hok) as (_ & Hp & _).
  simpl in Hp.
  match type of Hok with _ = (_, ?d0) => set (d1 := d0) in * end.
  destruct (validateKey_persisted d1 uid _ now Hp Hfmt) as (r & d2 & Hv & Hr & _).
  exists d1, r, d2. split; [|split; [|split]].
  - exact (saveUser_inserts fd (Some m) tu tk b d Hb He Hk Hnone).
  - destruct Hb as (_ & _ & _ & Hkey). apply falsy_false in Hkey as (k & Hkey & _).
    rewrite Hkey in *. exact Hv.
  - done.
  - rewrite saveUser_unfold. rewrite (complete_falsy b Hb). unfold insert_user, guarded.
    assert (email_taken (text (r_email b)) (tbl d1) = true) as ->; [|reflexivity].
    apply email_taken_iff. eexists uid, _. split; [apply lookup_insert_eq|done].
Qed.

Lemma saveUser_fetch_failure_keeps_rows_witness :
  ∃ d1 r d2,
    saveUser None None None (Some "SQLITE_BUSY: database is locked") 100 101
             ann_request open_db =
      (Reply 500 (BError "DB fetch after save failed"
                    (Some "SQLITE_BUSY: database is locked")), d1) ∧
    validateKey None None 200 (r_apiKey ann_request) d1 = (r, d2) ∧
    valid_reply (text (r_apiKey ann_request)) r ∧
    saveUser None None None None 300 301 ann_request d1 =
      (Reply 409 (BError "Email already exists" None), d1).
Proof.
  apply (saveUser_fetch_failure_keeps_rows None None 100 101 300 301 200
           ann_request open_db
           "SQLITE_BUSY: database is locked").
  - exact consistent_open_db.
  - repeat split.
  - apply key_re_format. vm_compute. reflexivity.
  - reflexivity.
  - reflexivity.
Defined.

(** X10: once an administrator has deleted a user, the e-mail address and
    the key string of that user are free again: in a consistent store a
    complete request with both is saved, under a new and greater id. *)
Theorem deleted_user_can_register_again
  (fd : fault) (tu tk : Z) (b : save_request) (d : db) (i : Z) (u : user_row) (a : apikey_row) :
  consistent d →
  users (tbl d) !! i = Some u → apikeys (tbl d) !! i = Some a →
  complete b → r_email b = Some (email u) → r_apiKey b = Some (api_key a) →
  ∃ row d2,
    saveUser None None fd None tu tk b (deleteUser None None (Js.Int i) d).2 =
      (Reply 200 (BSaved row), d2) ∧
    i < j_id row ∧ j_email row = email u ∧ j_api_key row = Some (api_key a).
Proof.
  intros Hc Hu Ha Hb He Hk. pose proof Hc as [H1 H2 H3 H4 H5].
  assert (0 < i ≤ users_seq (tbl d)) as Hi by eauto.
  rewrite deleteUser_commits; [|done|simpl; apply Z.eqb_neq; lia].
  cbn [snd]. eexists _, _. split.
  - apply saveUser_succeeds; [done| | |]; cbn [tbl users apikeys users_seq without].
    + destruct (email_taken _ _) eqn:E; [|done].
      apply email_taken_iff in E as (j & v & Hv & Ev). simpl in Hv.
      apply lookup_delete_Some in Hv as [Hne Hv]. rewrite He in Ev. simpl in Ev.
      destruct Hne. symmetry. eauto.
    + destruct (key_taken _ _) eqn:E; [|done].
      apply key_taken_iff in E as (j & c & Hc' & Ec). simpl in Hc'.
      apply lookup_delete_Some in Hc' as [Hne Hc']. rewrite Hk in Ec. simpl in Ec.
      destruct Hne. symmetry. eauto.
    + match goal with
      | |- delete i _ !! ?k = None =>
          destruct (delete i (apikeys (tbl d)) !! k) eqn:E; [|done]
      end.
      apply lookup_delete_Some in E as [_ E]. apply H2 in E as [v Hv].
      apply H5 in Hv. lia.
  - cbn [left_join j_id j_email j_api_key fst snd email tbl users apikeys
         users_seq without].
    rewrite lookup_insert_eq, He, Hk. simpl. repeat split. lia.
Qed.

Lemma deleted_user_can_register_again_witness :
  ∃ row d2,
    saveUser None None None None 400 401 ann_request
             (deleteUser None None (Js.Int 1) ann_saved).2 =
      (Reply 200 (BSaved row), d2) ∧
    1 < j_id row ∧ j_email row = "ann@example.org" ∧ j_api_key row = Some sample_key.
Proof.
  apply (deleted_user_can_register_again None 400 401 ann_request ann_saved 1
           {| firstname := "Ann"; lastname := "Lee"; email := "ann@example.org";
              is_online := 0; last_seen := None; created_at := 100 |}
           {| api_key := sample_key; apikey_created_at := 101 |}).
  - exact (consistent_saveUser None None None None 100 101 ann_request open_db
             consistent_open_db).
  - vm_compute. reflexivity.
  - vm_compute. reflexivity.
  - repeat split.
  - reflexivity.
  - reflexivity.
Defined.

(** *** Validation *)

Lemma find_scan_none {A : Type} (p : Z * A → bool) (m : gmap Z A) :
  (∀ i x, m !! i = Some x → p (i, x) = false) → find p (scan m) = None.
Proof.
  intros Hno. destruct (find p (scan m)) as [[i x]|] eqn:Hf; [|done].
  apply find_some in Hf as [Hin Hp].
  apply list_elem_of_In, elem_of_scan, Hno in Hin. congruence.
Qed.

Lemma validateKey_not_stored (fu : fault) (now : Z) (k : string) (d : db) :
  key_format k →
  (∀ i a, apikeys (tbl d) !! i = Some a → api_key a ≠ k) →
  validateKey None fu now (Some k) d =
    (Reply 404 (BInvalid "not_found" (Some "API key tidak ditemukan.")), d).
Proof.
  intros Hfmt Hno. unfold validateKey.
  rewrite (key_format_nonempty k Hfmt).
  apply key_re_format in Hfmt. change (text (Some k)) with k.
  rewrite Hfmt. cbn [negb]. unfold select_apikey, guarded.
  rewrite find_scan_none; [done|].
  intros i a Ha. simpl. apply String.eqb_neq. eauto.
Qed.

(** X11: a key of the right format that no row of apikeys holds is answered
    404 [not_found], and the store is not touched. *)
Theorem validateKey_unknown_key (fu : fault) (now : Z) (k : string) (d : db) :
  key_format k →
  (∀ i a, apikeys (tbl d) !! i = Some a → api_key a ≠ k) →
  validateKey None fu now (Some k) d =
    (Reply 404 (BInvalid "not_found" (Some "API key tidak ditemukan.")), d).
Proof.
  intros Hfmt Hno. unfold validateKey.
  rewrite (key_format_nonempty k Hfmt).
  apply key_re_format in Hfmt. change (text (Some k)) with k.
  rewrite Hfmt. cbn [negb]. unfold select_apikey, guarded.
  rewrite find_scan_none; [done|].
  intros i a Ha. simpl. apply String.eqb_neq. eauto.
Qed.

Lemma validateKey_unknown_key_witness :
  validateKey None None 200 (Some sample_key) open_db =
    (Reply 404 (BInvalid "not_found" (Some "API key tidak ditemukan.")), open_db).
Proof.
  apply (validateKey_unknown_key None 200 sample_key open_db).
  - apply key_re_format. vm_compute. reflexivity.
  - intros i a Ha. vm_compute in Ha. discriminate Ha.
Defined.

(** X12: the presence update of a validation is best effort: when the
    [UPDATE] fails, a stored key is still answered [valid: true] with status
    200, and the store is left as it was. *)
Theorem validateKey_update_failure_still_valid
  (m : string) (now : Z) (k : string) (id : Z) (d : db) :
  persisted d id k → key_format k →
  ∃ r, validateKey None (Some m) now (Some k) d = (r, d) ∧ valid_reply k r.
Proof.
  intros ([u Hu] & (a & Ha & Hk) & Huniq) Hfmt. unfold validateKey.
  rewrite (key_format_nonempty k Hfmt).
  apply key_re_format in Hfmt. change (text (Some k)) with k.
  rewrite Hfmt. cbn [negb]. unfold select_apikey, guarded.
  rewrite (find_scan_unique _ _ id a Ha).
  - eexists. split; [reflexivity|]. simpl. rewrite Hk. by eexists.
  - simpl. by apply String.eqb_eq.
  - simpl. intros j b Hb E. apply String.eqb_eq in E. eauto.
Qed.

Lemma saved_key_persisted :
  persisted ann_saved 1 sample_key.
Proof.
  assert (saveUser None None None None 100 101 ann_request open_db =
          (Reply 200 (BSaved
             {| j_id := 1; j_firstname := "Ann"; j_lastname := "Lee";
                j_email := "ann@example.org"; j_user_created_at := 100;
                j_api_key := Some sample_key; j_apikey_created_at := Some 101;
                j_last_seen := None |}), ann_saved)) as H
    by (vm_compute; reflexivity).
  by apply saveUser_saved in H as (_ & Hp & _).
Defined.

Lemma sample_key_format : key_format sample_key.
Proof. apply key_re_format. vm_compute. reflexivity. Defined.

Lemma validateKey_update_failure_still_valid_witness :
  ∃ r, validateKey None (Some "SQLITE_BUSY: database is locked") 200
                   (Some sample_key) ann_saved = (r, ann_saved) ∧
       valid_reply sample_key r.
Proof.
  exact (validateKey_update_failure_still_valid "SQLITE_BUSY: database is locked"
           200 sample_key 1 ann_saved saved_key_persisted sample_key_format).
Defined.

(** X13: a key that an administrator has revoked does not validate any
    more: the validation is answered 404 [not_found].  The user is still
    listed, now without a key. *)
Theorem revoked_key_not_found (fu : fault) (now : Z) (k : string) (id : Z) (d : db) :
  persisted d id k → key_format k →
  ∃ d1, revokeKey None (Js.Int id) d = (Reply 200 BSuccess, d1) ∧
        validateKey None fu now (Some k) d1 =
          (Reply 404 (BInvalid "not_found" (Some "API key tidak ditemukan.")), d1) ∧
        ∃ r, r ∈ listed now d1 ∧ l_id r = id ∧
             l_api_key r = None ∧ l_apikey_created_at r = None.
Proof.
  intros ([u Hu] & (a & Ha & Hk) & Huniq) Hfmt.
  eexists. split; [reflexivity|]. split.
  - apply validateKey_not_stored; [done|]. simpl.
    intros i b Hb E. apply lookup_delete_Some in Hb as [Hne Hb].
    destruct Hne. symmetry. eauto.
  - exists (list_row now (delete id (apikeys (tbl d))) (id, u)). split.
    + apply elem_of_listed. exists id, u. by split.
    + unfold list_row. simpl. by rewrite lookup_delete_eq.
Qed.

Lemma revoked_key_not_found_witness :
  ∃ d1, revokeKey None (Js.Int 1) ann_saved = (Reply 200 BSuccess, d1) ∧
        validateKey None None 200 (Some sample_key) d1 =
          (Reply 404 (BInvalid "not_found" (Some "API key tidak ditemukan.")), d1) ∧
        ∃ r, r ∈ listed 200 d1 ∧ l_id r = 1 ∧
             l_api_key r = None ∧ l_apikey_created_at r = None.
Proof.
  exact (revoked_key_not_found None 200 sample_key 1 ann_saved
           saved_key_persisted sample_key_format).
Defined.

(** X14: after an administrator has deleted a user (outside a transaction,
    id other than zero), the key of that user is answered 404 [not_found]
    and the user is not listed any more. *)
Theorem deleted_user_key_not_found
  (fu : fault) (now : Z) (k : string) (id : Z) (d : db) :
  txn d = None → id ≠ 0 → persisted d id k → key_format k →
  ∃ d1, deleteUser None None (Js.Int id) d = (Reply 200 BSuccess, d1) ∧
        validateKey None fu now (Some k) d1 =
          (Reply 404 (BInvalid "not_found" (Some "API key tidak ditemukan.")), d1) ∧
        ∀ r, r ∈ listed now d1 → l_id r ≠ id.
Proof.
  intros Htx Hid ([u Hu] & (a & Ha & Hk) & Huniq) Hfmt.
  eexists. split.
  { apply deleteUser_commits; [done|]. simpl. by apply Z.eqb_neq. }
  split.
  - apply validateKey_not_stored; [done|]. simpl.
    intros i b Hb E. apply lookup_delete_Some in Hb as [Hne Hb].
    destruct Hne. symmetry. eauto.
  - intros r Hr. apply elem_of_listed in Hr as (i & v & Hv & ->). simpl in *.
    apply lookup_delete_Some in Hv as [Hne _]. congruence.
Qed.

Lemma deleted_user_key_not_found_witness :
  ∃ d1, deleteUser None None (Js.Int 1) ann_saved = (Reply 200 BSuccess, d1) ∧
        validateKey None None 200 (Some sample_key) d1 =
          (Reply 404 (BInvalid "not_found" (Some "API key tidak ditemukan.")), d1) ∧
        ∀ r, r ∈ listed 200 d1 → l_id r ≠ 1.
Proof.
  apply (deleted_user_key_not_found None 200 sample_key 1 ann_saved).
  - reflexivity.
  - lia.
  - exact saved_key_persisted.
  - exact sample_key_format.
Defined.

(** X15: whatever the key and the faults, a validation never touches the
    apikeys table or the id sequence, never adds or removes a user, and
    changes nothing but [is_online] and [last_seen] in a user row. *)
Theorem validateKey_frame (fl fu : fault) (now : Z) (key : option string) (d : db) :
  apikeys (tbl (validateKey fl fu now key d).2) = apikeys (tbl d) ∧
  users_seq (tbl (validateKey fl fu now key d).2) = users_seq (tbl d) ∧
  dom (users (tbl (validateKey fl fu now key d).2)) = dom (users (tbl d)) ∧
  ∀ j u', users (tbl (validateKey fl fu now key d).2) !! j = Some u' →
          ∃ u, users (tbl d) !! j = Some u ∧
               firstname u' = firstname u ∧ lastname u' = lastname u ∧
               email u' = email u ∧ created_at u' = created_at u.
Proof.
  destruct (validateKey_store fl fu now key d) as [-> | [i ->]]; simpl.
  - repeat split; try done. intros; eauto 10.
  - repeat split; try done; [apply dom_alter_L|].
    intros j u' Hu'.
    apply lookup_alter_Some in Hu' as [[-> (u & Hu & ->)]|[_ Hu']];
      [exists u; by repeat split | eauto 10].
Qed.

(** *** The key generator, once more *)

Lemma parse_byte_hex (b : Byte.byte) (s : string) :
  Hex.parse_hex (Js.toUpperCase (Js.byte_hex b) +:+ s) =
  match Hex.parse_hex s with
  | Some bytes => Some (b :: bytes)
  | None => None
  end.
Proof. destruct b; reflexivity. Qed.

Lemma parse_hex_upper (buf : list Byte.byte) :
  Hex.parse_hex (Js.toUpperCase (Js.toString_hex buf)) = Some buf.
Proof.
  induction buf as [|b buf IH]; [done|].
  cbn [Js.toString_hex]. by rewrite toUpperCase_app, parse_byte_hex, IH.
Qed.

Lemma append_inj_l (p s1 s2 : string) : p +:+ s1 = p +:+ s2 → s1 = s2.
Proof.
  induction p as [|c p IH]; [done|].
  change (String c (p +:+ s1) = String c (p +:+ s2) → s1 = s2).
  intros [= H]. by apply IH.
Qed.

(** X16: [makeApiKey] is injective: random bytes that differ give keys that
    differ, as the bytes can be read back from the key. *)
Theorem makeApiKey_injective (rnd1 rnd2 : list Byte.byte) :
  makeApiKey rnd1 = makeApiKey rnd2 → rnd1 = rnd2.
Proof.
  unfold makeApiKey. intros H. apply append_inj_l in H.
  apply (f_equal Hex.parse_hex) in H. rewrite !parse_hex_upper in H.
  by injection H.
Qed.

Lemma makeApiKey_injective_witness :
  makeApiKey sample_bytes = makeApiKey sample_bytes ∧ sample_bytes = sample_bytes.
Proof.
  split; [reflexivity|].
  exact (makeApiKey_injective sample_bytes sample_bytes eq_refl).
Defined.

(** *** Administrator accounts *)

Import Admin.

Lemma admin_email_taken_iff (em : string) (a : admins) :
  admin_email_taken em a = true ↔
  ∃ i r, rows a !! i = Some r ∧ admin_email r = em.
Proof.
  unfold admin_email_taken. rewrite existsb_scan.
  split; intros (i & u & H & E); exists i, u; (split; [done|]); simpl in *.
  - by apply String.eqb_eq.
  - by apply String.eqb_eq.
Qed.

Lemma register_ok {B : Bcrypt} f now salt c a id a' :
  register f now salt c a = (AReply 200 (ARegistered id), a') →
  ∃ em pw,
    c_email c = Some em ∧ c_password c = Some pw ∧ em ≠ EmptyString ∧
    pw ≠ EmptyString ∧ admin_email_taken em a = false ∧ 0 < id ∧
    rows a !! id = None ∧
    a' = {| rows := <[id := {| admin_email := em;
                               password_hash := bcrypt_hash salt pw;
                               admin_created_at := now |}]> (rows a);
            admins_seq := id |}.
Proof.
  unfold register, hashPasswordMiddleware.
  destruct (Js.falsy (c_password c)) eqn:Hp; [done|].
  apply falsy_false in Hp as (pw & Hpw & Hpne). cbn [h_email h_password_hash].
  destruct (Js.falsy (c_email c)) eqn:He; [done|].
  apply falsy_false in He as (em & Hem & Hene).
  destruct (Js.falsy (Some _)); [done|]. cbn [orb].
  rewrite Hem, Hpw. cbn [text default from_option Datatypes.id].
  unfold insert_admin, guarded. destruct f as [m|].
  { destruct (negb (Js.falsy (Some m)) && Js.includes m "UNIQUE"); intros [=]. }
  destruct (admin_email_taken em a) eqn:Ht;
    [intros H; vm_compute in H; discriminate H|].
  intros [= <- <-]. exists em, pw.
  pose proof (max_rowid_nonneg (rows a)).
  repeat split; try done; [lia|].
  destruct (rows a !! _) eqn:E; [|done]. apply max_rowid_ge in E. lia.
Qed.

(** X17: an administrator who has registered can log in with the same
    e-mail address and password: the session then carries the id that the
    registration replied, every admin-management route is answered by its
    operation, and after the logout every one of them is answered 401. *)
Theorem register_login_logout
  {B : Bcrypt} (now : Z) (salt : string) (c : credentials) (a a' : admins)
  (id : Z) (s : session) :
  bcrypt_sound B →
  register None now salt c a = (AReply 200 (ARegistered id), a') →
  ∃ s', login None c a' s = (AReply 200 ASuccess, s') ∧
        adminId s' = Some id ∧ adminEmail s' = c_email c ∧
        (∀ f1 f2 t r d,
           admin_route f1 f2 t (Some s') r d = admin_handler f1 f2 t r d) ∧
        (∀ f1 f2 t r d,
           admin_route f1 f2 t (logout s').2 r d =
           (Reply 401 (BError "Unauthorized" None), d)).
Proof.
  intros Hsound Hreg.
  apply register_ok in Hreg
    as (em & pw & Hem & Hpw & Hene & Hpne & Hfree & Hid & Hfresh & ->).
  destruct (Hsound salt pw) as [Hcmp _].
  eexists. split; [|split; [|split; [|split]]].
  - unfold login. rewrite Hem, Hpw.
    assert (Js.falsy (Some em) = false) as -> by (apply falsy_false; eauto).
    assert (Js.falsy (Some pw) = false) as -> by (apply falsy_false; eauto).
    cbn [orb text default from_option Datatypes.id]. unfold select_admin, guarded. cbn [rows].
    rewrite (find_scan_unique _ _ id
               {| admin_email := em; password_hash := bcrypt_hash salt pw;
                  admin_created_at := now |}).
    + cbn [snd fst password_hash]. rewrite Hcmp. reflexivity.
    + apply lookup_insert_eq.
    + simpl. by apply String.eqb_eq.
    + simpl. intros j r Hr E. apply String.eqb_eq in E.
      apply lookup_insert_Some in Hr as [[<- _]|[_ Hr]]; [done|].
      assert (admin_email_taken em a = true); [|congruence].
      apply admin_email_taken_iff. eauto.
  - done.
  - simpl. by rewrite Hem.
  - intros f1 f2 t r d. unfold admin_route, admin_handler, requireAdmin. simpl.
    assert ((id =? 0) = false) as -> by (apply Z.eqb_neq; lia).
    by destruct r.
  - intros f1 f2 t r d. by destruct r.
Qed.

Lemma ends_with_append (front suffix : string) :
  ends_with (front +:+ suffix) suffix = true.
Proof.
  induction front as [|c front IH].
  - change (ends_with suffix suffix = true).
    destruct suffix; cbn [ends_with]; by rewrite String.eqb_refl.
  - change (ends_with (String c (front +:+ suffix)) suffix = true).
    cbn [ends_with]. rewrite IH. apply orb_true_r.
Qed.

Lemma toy_bcrypt_sound : bcrypt_sound toy_bcrypt.
Proof.
  intros salt password. split; [|done].
  change (ends_with ("$2b$10$" +:+ (salt +:+ ("$" +:+ password)))
                    ("$" +:+ password) = true).
  rewrite <- append_assoc. apply ends_with_append.
Qed.

Lemma register_login_logout_witness :
  bcrypt_sound toy_bcrypt ∧
  ∃ s', login (B := toy_bcrypt) None root_credentials root_registered new_session
          = (AReply 200 ASuccess, s') ∧
        adminId s' = Some 1 ∧ adminEmail s' = c_email root_credentials ∧
        (∀ f1 f2 t r d,
           admin_route f1 f2 t (Some s') r d = admin_handler f1 f2 t r d) ∧
        (∀ f1 f2 t r d,
           admin_route f1 f2 t (logout s').2 r d =
           (Reply 401 (BError "Unauthorized" None), d)).
Proof.
  split; [exact toy_bcrypt_sound|].
  apply (register_login_logout (B := toy_bcrypt) 50 "abcdefghijklmnopqrstuv"
           root_credentials no_admins root_registered 1 new_session
           toy_bcrypt_sound).
  vm_compute. reflexivity.
Defined.

(** X18: a login with an unknown e-mail address and a login with a wrong
    password get the same reply, 401 [Invalid credentials], and leave the
    session as it was: when no stored row with the e-mail address of the
    request has a hash that matches the password, that is the reply. *)
Theorem login_failure_uniform
  {B : Bcrypt} (c : credentials) (a : admins) (s : session) :
  Js.falsy (c_email c) = false → Js.falsy (c_password c) = false →
  (∀ i r, rows a !! i = Some r → admin_email r = text (c_email c) →
          bcrypt_compare (text (c_password c)) (password_hash r) = false) →
  login None c a s = (AReply 401 (AError "Invalid credentials"), s).
Proof.
  intros He Hp Hno. unfold login. rewrite He, Hp. cbn [orb].
  unfold select_admin, guarded.
  destruct (find _ _) as [[i r]|] eqn:Hf; [|done].
  apply find_some in Hf as [Hin Heq].
  apply list_elem_of_In, elem_of_scan in Hin. simpl in Heq.
  apply String.eqb_eq in Heq. cbn [snd]. by rewrite (Hno i r Hin Heq).
Qed.

Lemma login_failure_uniform_witness :
  login (B := toy_bcrypt) None
        {| c_email := Some "root@example.org"; c_password := Some "guess" |}
        root_registered new_session =
    (AReply 401 (AError "Invalid credentials"), new_session) ∧
  login (B := toy_bcrypt) None
        {| c_email := Some "nobody@example.org"; c_password := Some "s3cret" |}
        root_registered new_session =
    (AReply 401 (AError "Invalid credentials"), new_session).
Proof.
  split.
  - apply (login_failure_uniform (B := toy_bcrypt)); [done|done|].
    intros i r Hr E. vm_compute in Hr.
    destruct i as [|[]|]; try discriminate Hr.
    injection Hr as <-. vm_compute. reflexivity.
  - apply (login_failure_uniform (B := toy_bcrypt)); [done|done|].
    intros i r Hr E. vm_compute in Hr.
    destruct i as [|[]|]; try discriminate Hr.
    injection Hr as <-. vm_compute in E. discriminate E.
Defined.

(** X19: a registration with an e-mail address that an administrator row
    already holds is answered 409 [Admin email exists], and the admins table
    is left as it was. *)
Theorem register_duplicate_email
  {B : Bcrypt} (now : Z) (salt : string) (c : credentials) (a : admins)
  (i : Z) (r : admin_row) :
  bcrypt_sound B →
  Js.falsy (c_password c) = false →
  rows a !! i = Some r → c_email c = Some (admin_email r) →
  admin_email r ≠ EmptyString →
  register None now salt c a = (AReply 409 (AError "Admin email exists"), a).
Proof.
  intros Hsound Hp Hr He Hne. unfold register, hashPasswordMiddleware.
  rewrite Hp. cbn [h_email h_password_hash]. rewrite He.
  assert (Js.falsy (Some (admin_email r)) = false) as ->
    by (apply falsy_false; eauto).
  destruct (Hsound salt (text (c_password c))) as [_ Hh].
  assert (Js.falsy (Some (bcrypt_hash salt (text (c_password c)))) = false) as ->
    by (apply falsy_false; eauto).
  cbn [orb text default from_option Datatypes.id]. unfold insert_admin, guarded.
  assert (admin_email_taken (admin_email r) a = true) as ->; [|reflexivity].
  apply admin_email_taken_iff. eauto.
Qed.

Lemma register_duplicate_email_witness :
  register (B := toy_bcrypt) None 60 "vutsrqponmlkjihgfedcba"
           {| c_email := Some "root@example.org"; c_password := Some "other" |}
           root_registered =
    (AReply 409 (AError "Admin email exists"), root_registered).
Proof.
  apply (register_duplicate_email (B := toy_bcrypt) 60 "vutsrqponmlkjihgfedcba"
           {| c_email := Some "root@example.org"; c_password := Some "other" |}
           root_registered 1
           {| admin_email := "root@example.org";
              password_hash := "$2b$10$abcdefghijklmnopqrstuv$s3cret";
              admin_created_at := 50 |} toy_bcrypt_sound).
  - reflexivity.
  - vm_compute. reflexivity.
  - reflexivity.
  - discriminate.
Defined.

(** *** The console *)

Import Console.


Lemma trimEnd_cons (c : ascii) (s : string) :
  is_space c = false → trimEnd (String c s) = String c (trimEnd s).
Proof. intros H. cbn [trimEnd]. rewrite H. by destruct (trimEnd s). Qed.




Lemma trimStart_all_space (s : string) :
  Forall (λ c, is_space c = true) (list_ascii_of_string s) →
  trimStart s = EmptyString.
Proof.
  induction s as [|c s IH]; [done|]. intros H.
  apply Forall_cons in H as [Hc H]. cbn [trimStart]. rewrite Hc. by apply IH.
Qed.

(** X20: a command made of white space only, the empty one included, does
    nothing: the console box is left as it was and nothing is fetched. *)
Theorem console_blank_command (time cmd : string) (box : list line) :
  Forall (λ c, is_space c = true) (list_ascii_of_string cmd) →
  handleCommand time cmd box = (box, None).
Proof.
  intros H. unfold handleCommand, trim. by rewrite trimStart_all_space.
Qed.

Lemma console_blank_command_witness :
  handleCommand "10:00:00" "   " (printToConsole "> help" "#ff007c" []) =
    (printToConsole "> help" "#ff007c" [], None).
Proof.
  apply (console_blank_command "10:00:00" "   "
           (printToConsole "> help" "#ff007c" [])).
  repeat constructor.
Defined.

Lemma prefix_append (p s : string) : String.prefix p (p +:+ s) = true.
Proof.
  induction p as [|c p IH]; [by destruct s|].
  change (String.prefix (String c p) (String c (p +:+ s)) = true).
  cbn [String.prefix]. by destruct (ascii_dec c c).
Qed.








Lemma is_space_lower (c : ascii) : is_space (char_toLowerCase c) = is_space c.
Proof. destruct c as [[] [] [] [] [] [] [] []]; reflexivity. Qed.

Lemma char_toLowerCase_idem (c : ascii) :
  char_toLowerCase (char_toLowerCase c) = char_toLowerCase c.
Proof. destruct c as [[] [] [] [] [] [] [] []]; reflexivity. Qed.

Lemma toLowerCase_idem (s : string) : toLowerCase (toLowerCase s) = toLowerCase s.
Proof.
  induction s as [|c s IH]; [done|]. simpl. by rewrite char_toLowerCase_idem, IH.
Qed.

Lemma trimStart_lower (s : string) :
  trimStart (toLowerCase s) = toLowerCase (trimStart s).
Proof.
  induction s as [|c s IH]; [done|]. cbn [toLowerCase trimStart].
  rewrite is_space_lower. by destruct (is_space c).
Qed.

Lemma trimEnd_lower (s : string) :
  trimEnd (toLowerCase s) = toLowerCase (trimEnd s).
Proof.
  induction s as [|c s IH]; [done|]. cbn [toLowerCase trimEnd].
  rewrite IH, is_space_lower.
  destruct (trimEnd s); cbn [toLowerCase]; [by destruct (is_space c)|done].
Qed.

Lemma trimEnd_idem (s : string) : trimEnd (trimEnd s) = trimEnd s.
Proof.
  induction s as [|c s IH]; [done|]. cbn [trimEnd].
  destruct (trimEnd s) as [|c' t] eqn:E.
  - destruct (is_space c) eqn:Hc; [done|]. cbn [trimEnd]. by rewrite Hc.
  - cbn [trimEnd]. cbn [trimEnd] in IH. by rewrite IH.
Qed.

Lemma trimStart_head (s : string) :
  match trimStart s with
  | EmptyString => True
  | String c _ => is_space c = false
  end.
Proof.
  induction s as [|c s IH]; [done|]. cbn [trimStart].
  by destruct (is_space c) eqn:E.
Qed.

Lemma trim_idem (s : string) : trim (trim s) = trim s.
Proof.
  unfold trim. pose proof (trimStart_head s) as H.
  destruct (trimStart s) as [|c t]; [done|].
  rewrite (trimEnd_cons c t H). cbn [trimStart]. rewrite H.
  rewrite <- (trimEnd_cons c t H). apply trimEnd_idem.
Qed.

(** X23: [handleCommand] looks at a command only after it has dropped the
    white space around it and put it in lower case: a command and its
    normal form have the same effect, so commands are matched regardless of
    case and of surrounding white space. *)
Theorem console_command_normalised (time cmd : string) (box : list line) :
  handleCommand time cmd box = handleCommand time (toLowerCase (trim cmd)) box.
Proof.
  unfold handleCommand.
  assert (toLowerCase (trim (toLowerCase (trim cmd))) = toLowerCase (trim cmd)) as ->;
    [|done].
  unfold trim at 1. rewrite trimStart_lower, trimEnd_lower, toLowerCase_idem.
  fold (trim (trim cmd)). by rewrite trim_idem.
Qed.

(** *** Revoking and deleting *)

Lemma without_idem {A : Type} (id : Js.number) (m : gmap Z A) :
  without id (without id m) = without id m.
Proof. destruct id as [|z|]; simpl; [done| |done]. apply delete_delete_eq. Qed.

(** X24: revoking the key first does not get in the way of deleting the
    user: outside a transaction, and for an id that is not falsy, the
    delete after the revoke has the reply and the final store of the delete
    alone. *)
Theorem delete_after_revoke (id : Js.number) (d : db) :
  txn d = None → Js.falsy_number id = false →
  deleteUser None None id (revokeKey None id d).2 = deleteUser None None id d ∧
  (deleteUser None None id d).1 = Reply 200 BSuccess.
Proof.
  intros Htx Hid. rewrite (deleteUser_commits id d Htx Hid).
  split; [|done].
  rewrite deleteUser_commits; [|by destruct id|done].
  unfold revokeKey, delete_apikey, guarded. cbn [snd].
  destruct id as [|z|]; simpl; try done.
  by rewrite delete_delete_eq.
Qed.

Lemma delete_after_revoke_witness :
  txn ann_saved = None ∧
  deleteUser None None (Js.Int 1) (revokeKey None (Js.Int 1) ann_saved).2 =
    deleteUser None None (Js.Int 1) ann_saved ∧
  (deleteUser None None (Js.Int 1) ann_saved).1 = Reply 200 BSuccess.
Proof.
  split; [reflexivity|].
  apply (delete_after_revoke (Js.Int 1) ann_saved); reflexivity.
Defined.

(** X25: deleting an id that matches no row (and is not falsy) is answered
    success, not an error: the two tables are left as they were, and the
    foreign-key enforcement of the connection is on afterwards. *)
Theorem delete_unknown_id (id : Js.number) (d : db) :
  txn d = None → Js.falsy_number id = false →
  (∀ z, id = Js.Int z →
        users (tbl d) !! z = None ∧ apikeys (tbl d) !! z = None) →
  deleteUser None None id d =
    (Reply 200 BSuccess, {| tbl := tbl d; foreign_keys := true; txn := None |}).
Proof.
  intros Htx Hid Hno. rewrite (deleteUser_commits id d Htx Hid).
  destruct d as [[us ks seq] fkeys tx]. simpl in *.
  destruct id as [|z|]; simpl; try done.
  destruct (Hno z eq_refl) as [Hu Hk]. by rewrite !delete_id.
Qed.

Lemma delete_unknown_id_witness :
  deleteUser None None (Js.Int 7) ann_saved =
    (Reply 200 BSuccess,
     {| tbl := tbl ann_saved; foreign_keys := true; txn := None |}).
Proof.
  apply (delete_unknown_id (Js.Int 7) ann_saved); [reflexivity|reflexivity|].
  intros z [= <-]. split; vm_compute; reflexivity.
Defined.

(** *** Keys outside the format *)

(** X26: [saveUser] does not check the format of the key it stores.  In a
    consistent store a complete request with a new e-mail address and a new
    key string is saved whatever the key string is; when that string is
    outside the key format, its validation is refused with 400
    [invalid_format], so the stored key can never be used. *)
Theorem saveUser_stores_malformed_key
  (fd : fault) (tu tk now : Z) (fl fu : fault) (b : save_request) (d : db) :
  consistent d → complete b → ¬ key_format (text (r_apiKey b)) →
  email_taken (text (r_email b)) (tbl d) = false →
  key_taken (text (r_apiKey b)) (tbl d) = false →
  ∃ row d1,
    saveUser None None fd None tu tk b d = (Reply 200 (BSaved row), d1) ∧
    j_api_key row = r_apiKey b ∧
    (∃ i a, apikeys (tbl d1) !! i = Some a ∧ Some (api_key a) = r_apiKey b) ∧
    validateKey fl fu now (r_apiKey b) d1 =
      (Reply 400 (BInvalid "invalid_format" None), d1).
Proof.
  intros Hc Hb Hbad He Hk.
  assert (apikeys (tbl d) !!
            (Z.max (max_rowid (users (tbl d))) (users_seq (tbl d)) + 1) = None)
    as Hnone.
  { destruct (apikeys (tbl d) !! _) eqn:E; [|done].
    apply (key_has_user d Hc) in E as [u Hu].
    apply (ids_in_sequence d Hc) in Hu. lia. }
  pose proof (saveUser_succeeds fd tu tk b d Hb He Hk Hnone) as Hok. cbv zeta in Hok.
  destruct Hb as (_ & _ & _ & Hkey). pose proof Hkey as Hkey'.
  apply falsy_false in Hkey' as (k & Ek & Hkne).
  eexists _, _. split; [exact Hok|]. rewrite Ek in *. cbn [text default from_option id] in *.
  split; [|split].
  - cbn [left_join j_api_key fst snd]. by rewrite lookup_insert_eq.
  - eexists _, _. cbn [tbl set_tbl apikeys]. split; [apply lookup_insert_eq|done].
  - unfold validateKey. rewrite Hkey. change (text (Some k)) with k.
    destruct (Js.re_test key_re k) eqn:E; [|reflexivity].
    apply key_re_format in E. done.
Qed.

Lemma saveUser_stores_malformed_key_witness :
  ∃ row d1,
    saveUser None None None None 100 101
      {| r_firstname := Some "Cy"; r_lastname := Some "Doe";
         r_email := Some "cy@example.org"; r_apiKey := Some "my-own-key" |}
      open_db = (Reply 200 (BSaved row), d1) ∧
    j_api_key row = Some "my-own-key" ∧
    (∃ i a, apikeys (tbl d1) !! i = Some a ∧ Some (api_key a) = Some "my-own-key") ∧
    validateKey None None 200 (Some "my-own-key") d1 =
      (Reply 400 (BInvalid "invalid_format" None), d1).
Proof.
  apply (saveUser_stores_malformed_key None 100 101 200 None None
           {| r_firstname := Some "Cy"; r_lastname := Some "Doe";
              r_email := Some "cy@example.org"; r_apiKey := Some "my-own-key" |}
           open_db).
  - exact consistent_open_db.
  - repeat split.
  - rewrite <- key_re_format. by vm_compute.
  - reflexivity.
  - reflexivity.
Defined.
